(** * ProbeGenerator: gene SNP probes and probe printing

    A shallow embedding of [probe_generator/print_probes.py] and
    [probe_generator/gene_snp_probe.py], with the properties of the
    statement-resolution and coordinate-deduplication engine.

    Conventions.
    - A Python [str] is a [string]; a character is an [ascii], read as the
      code point of that number, so the strings covered are those of code
      points below 256.
    - A Python [int] is a [Z].
    - A Python [set] of hashable values is a [gset]; a [dict] whose iteration
      order matters is the list of its items in iteration order.
    - A call that may raise returns a [result]: the value, or the exception. *)

From Stdlib Require Import ZArith Ascii String List Lia Permutation.
From Stdlib Require OrderedTypeEx.
From stdpp Require Import base option list gmap strings sorting.

(** ** Exceptions *)

(** The exceptions that the two modules raise, catch or let through. The
    payload of the two collaborator errors and of [OutOfRange] is the text
    [str(error)] that the handlers print. *)
Inductive exn : Type :=
  | InvalidStatement
  | OutOfRange (msg : string)
  | NoFeatureError (msg : string)
  | MissingChromosome (msg : string)
  | KeyError (key : string)
  | TypeError
  | ValueError
  | UnboundLocalError (name : string).

Inductive result (A : Type) : Type :=
  | Ok (a : A)
  | Raise (e : exn).
Arguments Ok {A} a.
Arguments Raise {A} e.

#[global] Instance result_ret : MRet result := fun A a => Ok a.

#[global] Instance result_bind : MBind result := fun A B f r =>
  match r with
  | Ok a => f a
  | Raise e => Raise e
  end.

(** ** Strings *)

Definition chars (s : string) : list ascii := list_ascii_of_string s.

(** [''.join(cs)] for a sequence of one-character strings. *)
Definition join (cs : list ascii) : string := string_of_list_ascii cs.

(** * print_probes.py *)

Module print_probes.

(** [_COMPLEMENT = str.maketrans('acgtACGT', 'tgcaTGCA')]: the table sends
    each of the eight letters to its partner; [str.translate] leaves a
    character that is not a key of the table as it is. *)
Definition _COMPLEMENT (c : ascii) : ascii :=
  match c with
  | "a" => "t" | "c" => "g" | "g" => "c" | "t" => "a"
  | "A" => "T" | "C" => "G" | "G" => "C" | "T" => "A"
  | _ => c
  end%char.

(** [string.translate(table)] *)
Fixpoint translate (table : ascii -> ascii) (s : string) : string :=
  match s with
  | EmptyString => EmptyString
  | String c s' => String (table c) (translate table s')
  end.

(** [reversed(string)]: the characters from the last to the first. *)
Definition reversed (s : string) : list ascii := rev (chars s).

(** [return ''.join(reversed(string.translate(_COMPLEMENT)))] *)
Definition reverse_complement (s : string) : string :=
  join (reversed (translate _COMPLEMENT s)).

(** The alphabet of nucleotide strings, [acgtACGT]. *)
Definition is_nucleotide (c : ascii) : bool :=
  match c with
  | "a" | "c" | "g" | "t" | "A" | "C" | "G" | "T" => true
  | _ => false
  end%char.

Definition nucleotides (s : string) : Prop :=
  forallb is_nucleotide (chars s) = true.


(** ** Dictionaries *)

(** The values held by a coordinate dictionary: chromosome names, positions
    and the two reverse-complement flags. *)
Inductive pyval : Type :=
  | PStr (s : string)
  | PInt (z : Z)
  | PBool (b : bool).

(** A [dict] with string keys, as the list of its items in iteration order.
    The keys of a dictionary are pairwise different ([NoDup (map fst d)]). *)
Definition item : Type := string * pyval.
Definition dict : Type := list item.

(** [dictionary[key]] *)
Fixpoint dict_get (d : dict) (key : string) : result pyval :=
  match d with
  | [] => Raise (KeyError key)
  | (k, v) :: d' => if String.eqb k key then Ok v else dict_get d' key
  end.

(** [bool] is a subclass of [int]: a flag compares as 0 or 1. *)
Definition as_int (v : pyval) : option Z :=
  match v with
  | PInt z => Some z
  | PBool b => Some (if b then 1 else 0)%Z
  | PStr _ => None
  end.

(** [v == w] *)
Definition val_eq (v w : pyval) : bool :=
  match v, w with
  | PStr a, PStr b => String.eqb a b
  | PStr _, _ | _, PStr _ => false
  | _, _ => match as_int v, as_int w with
            | Some a, Some b => Z.eqb a b
            | _, _ => false
            end
  end.

(** [v < w]: strings compare by code points, numbers by value, and a string
    against a number raises [TypeError]. *)
Definition val_lt (v w : pyval) : result bool :=
  match v, w with
  | PStr a, PStr b => Ok (String.ltb a b)
  | PStr _, _ | _, PStr _ => Raise TypeError
  | _, _ => match as_int v, as_int w with
            | Some a, Some b => Ok (Z.ltb a b)
            | _, _ => Raise TypeError
            end
  end.

(** Truth value of [v] in an [if]. *)
Definition truthy (v : pyval) : bool :=
  match v with
  | PStr s => negb (String.eqb s "")
  | PInt z => negb (Z.eqb z 0)
  | PBool b => b
  end.

(** [a < b] on two [(key, value)] tuples: the first position where the
    tuples differ decides; equal tuples are not less. *)
Definition item_lt (a b : item) : result bool :=
  if String.eqb (fst a) (fst b) then
    if val_eq (snd a) (snd b) then Ok false else val_lt (snd a) (snd b)
  else Ok (String.ltb (fst a) (fst b)).

(** [sorted(items)] is a stable sort that only uses [<]. It is written here
    as an insertion sort: [x], which stood before every element of [l],
    goes in front of the first element that is not less than it. *)
Fixpoint sorted_insert (x : item) (l : list item) : result (list item) :=
  match l with
  | [] => Ok [x]
  | y :: l' =>
      b ← item_lt y x;
      if b : bool then (r ← sorted_insert x l'; Ok (y :: r))
      else Ok (x :: y :: l')
  end.

Fixpoint sorted (l : list item) : result (list item) :=
  match l with
  | [] => Ok []
  | x :: l' => r ← sorted l'; sorted_insert x r
  end.

Section collaborators.

(** The collaborators of [print_probes] that live in other modules of the
    package: the reference genome and its lookup [reference.bases], the
    coordinate resolution [sequence.sequence_range], the two renderers
    [probe_statement.to_string] and
    [coordinate_statement.breakpoint_string], and the ['name'] entry of an
    annotation row. [hash] is the builtin on a tuple of items. *)
Context {genome spec_t row : Type}.
Variable reference_bases : genome -> pyval -> pyval -> pyval -> result string.
Variable sequence_range : spec_t -> row -> row -> result dict.
Variable to_string : spec_t -> string.
Variable breakpoint_string : dict -> string.
Variable row_name : row -> string.
Variable hash : list item -> Z.

(** [return hash(tuple(sorted(dictionary.items())))] *)
Definition dict_hash (dictionary : dict) : result Z :=
  items ← sorted dictionary; Ok (hash items).

Definition probe_name (specification : spec_t) (coordinates : dict)
    (left_row right_row : row) : string :=
  (to_string specification ++ "_" ++ breakpoint_string coordinates ++ "_"
   ++ row_name left_row ++ "_" ++ row_name right_row)%string.

Definition bases_from_coordinate (coordinate : dict) (ref_genome : genome)
    : result string :=
  chromosome1 ← dict_get coordinate "chromosome1";
  start1 ← dict_get coordinate "start1";
  end1 ← dict_get coordinate "end1";
  first_bases ← reference_bases ref_genome chromosome1 start1 end1;
  chromosome2 ← dict_get coordinate "chromosome2";
  start2 ← dict_get coordinate "start2";
  end2 ← dict_get coordinate "end2";
  second_bases ← reference_bases ref_genome chromosome2 start2 end2;
  rc_side_1 ← dict_get coordinate "rc_side_1";
  let first_bases :=
    if truthy rc_side_1 then reverse_complement first_bases else first_bases in
  rc_side_2 ← dict_get coordinate "rc_side_2";
  let second_bases :=
    if truthy rc_side_2 then reverse_complement second_bases else second_bases in
  Ok (first_bases ++ second_bases)%string.

(** *** get_sequences *)

(** The state of the generator between two statements: the local variables
    [coordinate] and [bases] ([None] while unbound), the set
    [cached_coords], what has been yielded and what has been printed to
    [sys.stderr], both oldest first. *)
Record gs_state : Type := mk_gs_state {
  gs_coordinate : option dict;
  gs_bases : option string;
  gs_cached : gset Z;
  gs_yielded : list (string * string);
  gs_stderr : list string
}.

Definition gs_init : gs_state :=
  mk_gs_state None None ∅ [] [].

Definition gs_print (line : string) (st : gs_state) : gs_state :=
  mk_gs_state (gs_coordinate st) (gs_bases st) (gs_cached st)
              (gs_yielded st) (gs_stderr st ++ [line]).

(** Reading a local variable that no assignment has reached. *)
Definition local {A} (name : string) (v : option A) : result A :=
  match v with
  | Some a => Ok a
  | None => Raise (UnboundLocalError name)
  end.

(** The [try] block: each assignment takes effect when its right-hand side
    returns; the exception, if any, leaves the block with the assignments
    made so far. *)
Definition gs_try (st : gs_state) (spec : spec_t) (left_row right_row : row)
    (ref_genome : genome) : gs_state * option exn :=
  match sequence_range spec left_row right_row with
  | Raise e => (st, Some e)
  | Ok coordinate =>
      let st1 := mk_gs_state (Some coordinate) (gs_bases st) (gs_cached st)
                             (gs_yielded st) (gs_stderr st) in
      match bases_from_coordinate coordinate ref_genome with
      | Raise e => (st1, Some e)
      | Ok bases =>
          (mk_gs_state (Some coordinate) (Some bases) (gs_cached st)
                       (gs_yielded st) (gs_stderr st), None)
      end
  end.

(** The [except] clause: the two collaborator errors are printed and
    swallowed, any other exception leaves the generator. *)
Definition gs_except (st : gs_state) (e : option exn) : gs_state * option exn :=
  match e with
  | None => (st, None)
  | Some (NoFeatureError msg) | Some (MissingChromosome msg) =>
      (gs_print (msg ++ ". Skipping...") st, None)
  | Some e' => (st, Some e')
  end.

(** The statements after the [try]: they run whether or not the handler
    ran, since the handler neither re-raises nor continues the loop. *)
Definition gs_emit (st : gs_state) (spec : spec_t) (left_row right_row : row)
    : gs_state * option exn :=
  match coordinate ← local "coordinate" (gs_coordinate st);
        coord_hash ← dict_hash coordinate;
        Ok (coordinate, coord_hash) with
  | Raise e => (st, Some e)
  | Ok (coordinate, coord_hash) =>
      if decide (coord_hash ∈ gs_cached st) then
        (gs_print (to_string spec ++ " " ++ row_name left_row ++ " "
                   ++ row_name right_row
                   ++ " appears to be redundant. Skipping...") st, None)
      else
        let st1 := mk_gs_state (gs_coordinate st) (gs_bases st)
                               ({[coord_hash]} ∪ gs_cached st)
                               (gs_yielded st) (gs_stderr st) in
        let name := probe_name spec coordinate left_row right_row in
        match local "bases" (gs_bases st) with
        | Raise e => (st1, Some e)
        | Ok bases =>
            (mk_gs_state (gs_coordinate st) (gs_bases st)
                         ({[coord_hash]} ∪ gs_cached st)
                         (gs_yielded st ++ [(name, bases)]) (gs_stderr st),
             None)
        end
  end.

(** One turn of [for statement in statements]. *)
Definition gs_body (st : gs_state) (statement : spec_t * row * row)
    (ref_genome : genome) : gs_state * option exn :=
  let '(spec, left_row, right_row) := statement in
  let '(st1, e) := gs_try st spec left_row right_row ref_genome in
  match gs_except st1 e with
  | (st2, Some e') => (st2, Some e')
  | (st2, None) => gs_emit st2 spec left_row right_row
  end.

Fixpoint gs_loop (statements : list (spec_t * row * row)) (ref_genome : genome)
    (st : gs_state) : gs_state * option exn :=
  match statements with
  | [] => (st, None)
  | statement :: rest =>
      match gs_body st statement ref_genome with
      | (st', None) => gs_loop rest ref_genome st'
      | (st', Some e) => (st', Some e)
      end
  end.

(** What a consumer that exhausts [get_sequences(statements, genome)] sees:
    the pairs yielded, the lines on [sys.stderr], and the exception that
    ended the iteration, if one did. *)
Record gs_outcome : Type := mk_gs_outcome {
  yielded : list (string * string);
  stderr : list string;
  raised : option exn
}.

Definition get_sequences (statements : list (spec_t * row * row))
    (ref_genome : genome) : gs_outcome :=
  let '(st, e) := gs_loop statements ref_genome gs_init in
  mk_gs_outcome (gs_yielded st) (gs_stderr st) e.

End collaborators.

(** *** explode_statements *)

Section explode_statements.

(** The collaborators of [explode_statements]: [probe_statement.parse] and
    [probe_statement.expand], the entries of a specification,
    [annotation.lookup_gene] and [annotation.exons]. [annotation_t] is
    what the combined annotation is; an exon is only counted. *)
Context {spec_t row annotation_t exon : Type}.
Variable parse : string -> result spec_t.
Variable spec_get : spec_t -> string -> result string.
Variable lookup_gene : string -> annotation_t -> list row.
Variable exons : row -> list exon.
Variable expand : spec_t -> nat -> nat -> result (list spec_t).

(** The innermost loops, for one pair of rows: the specifications that
    [expand] returns are yielded with the two rows. *)
Definition es_pair (specification : spec_t) (yields : list (spec_t * row * row))
    (rows : row * row) : list (spec_t * row * row) * option exn :=
  let '(left_row, right_row) := rows in
  match expand specification (List.length (exons left_row))
               (List.length (exons right_row)) with
  | Raise e => (yields, Some e)
  | Ok specs =>
      (yields ++ map (fun spec => (spec, left_row, right_row)) specs, None)
  end.

(** [for left, right in itertools.product(left_rows, right_rows)] *)
Fixpoint es_pairs (specification : spec_t) (pairs : list (row * row))
    (yields : list (spec_t * row * row))
    : list (spec_t * row * row) * option exn :=
  match pairs with
  | [] => (yields, None)
  | rows :: rest =>
      match es_pair specification yields rows with
      | (yields', None) => es_pairs specification rest yields'
      | (yields', Some e) => (yields', Some e)
      end
  end.

(** One turn of [for statement in statements]. [itertools.product] runs
    through the right rows for each left row. *)
Definition es_statement (annotation_files : annotation_t)
    (yields : list (spec_t * row * row)) (statement : string)
    : list (spec_t * row * row) * option exn :=
  match specification ← parse statement;
        gene1 ← spec_get specification "gene1";
        gene2 ← spec_get specification "gene2";
        Ok (specification, gene1, gene2) with
  | Raise e => (yields, Some e)
  | Ok (specification, gene1, gene2) =>
      let left_rows := lookup_gene gene1 annotation_files in
      let right_rows := lookup_gene gene2 annotation_files in
      es_pairs specification (list_prod left_rows right_rows) yields
  end.

Fixpoint es_loop (annotation_files : annotation_t) (statements : list string)
    (yields : list (spec_t * row * row))
    : list (spec_t * row * row) * option exn :=
  match statements with
  | [] => (yields, None)
  | statement :: rest =>
      match es_statement annotation_files yields statement with
      | (yields', None) => es_loop annotation_files rest yields'
      | (yields', Some e) => (yields', Some e)
      end
  end.

(** What a consumer that exhausts
    [explode_statements(statements, annotation_files)] sees: the triples
    yielded, and the exception that ended the iteration, if one did. *)
Definition explode_statements (statements : list string)
    (annotation_files : annotation_t)
    : list (spec_t * row * row) * option exn :=
  es_loop annotation_files statements [].

End explode_statements.

End print_probes.

(** * gene_snp_probe.py *)

Module gene_snp_probe.

(** ** Regular expressions

    The fragment of the [re] syntax that [_STATEMENT_REGEX] is written in:
    a character class, a greedy [*] or [+] over a character class,
    concatenation, alternation and a numbered capturing group. *)
Inductive regex : Type :=
  | Class (p : ascii -> bool)
  | Star (p : ascii -> bool)
  | Plus (p : ascii -> bool)
  | Seq (r1 r2 : regex)
  | Alt (r1 r2 : regex)
  | Group (n : nat) (r : regex).

(** The groups captured so far, the latest first. *)
Definition captures : Type := list (nat * string).

(** The part of [s] that was consumed when [rest] is what remains. *)
Definition consumed (s rest : string) : string :=
  substring 0 (String.length s - String.length rest) s.

(** The first alternative that leads to a match wins. *)
Definition or_else {A} (a b : option A) : option A :=
  match a with
  | Some x => Some x
  | None => b
  end.

(** Greedy repetition: as many characters of the class as there are, then
    one fewer each time the rest of the pattern does not match. *)
Fixpoint star {A} (p : ascii -> bool) (s : string) (k : string -> option A)
    : option A :=
  match s with
  | String c s' => if p c then or_else (star p s' k) (k s) else k s
  | EmptyString => k s
  end.

(** The backtracking matcher. [k] is the rest of the pattern: it gets the
    rest of the string and the groups captured so far. *)
Fixpoint re_match {A} (r : regex) (s : string) (caps : captures)
    (k : string -> captures -> option A) : option A :=
  match r with
  | Class p =>
      match s with
      | String c s' => if p c then k s' caps else None
      | EmptyString => None
      end
  | Star p => star p s (fun rest => k rest caps)
  | Plus p =>
      match s with
      | String c s' => if p c then star p s' (fun rest => k rest caps) else None
      | EmptyString => None
      end
  | Seq r1 r2 => re_match r1 s caps (fun rest caps' => re_match r2 rest caps' k)
  | Alt r1 r2 => or_else (re_match r1 s caps k) (re_match r2 s caps k)
  | Group n r' =>
      re_match r' s caps (fun rest caps' => k rest ((n, consumed s rest) :: caps'))
  end.

(** [pattern.match(string)]: the pattern has to match at the start of the
    string; what follows the match is not looked at. *)
Definition regex_match (r : regex) (s : string) : option captures :=
  re_match r s [] (fun _ caps => Some caps).

(** [match.group(n)], [None] for a group that took no part in the match. *)
Fixpoint group (n : nat) (caps : captures) : option string :=
  match caps with
  | [] => None
  | (m, text) :: caps' => if Nat.eqb m n then Some text else group n caps'
  end.

(** *** Character classes *)

Definition code (c : ascii) : N := N_of_ascii c.

Definition in_range (lo hi c : ascii) : bool :=
  (N.leb (code lo) (code c) && N.leb (code c) (code hi))%bool.

(** [\s] in a [str] pattern: the whitespace of Unicode. Below 256 these are
    tab to carriage return, the four separators 28 to 31, the space, NEL
    (133) and the no-break space (160). *)
Definition is_space (c : ascii) : bool :=
  (in_range "009" "013" c || in_range "028" "031" c || Ascii.eqb c " "
   || Ascii.eqb c "133" || Ascii.eqb c "160")%bool.

(** [[0-9]] *)
Definition is_digit (c : ascii) : bool := in_range "0" "9" c.

(** [[a-zA-Z0-9_./-]] *)
Definition is_gene_char (c : ascii) : bool :=
  (in_range "a" "z" c || in_range "A" "Z" c || in_range "0" "9" c
   || Ascii.eqb c "_" || Ascii.eqb c "." || Ascii.eqb c "/"
   || Ascii.eqb c "-")%bool.

(** [[ACGTacgt]] *)
Definition is_base (c : ascii) : bool :=
  (Ascii.eqb c "A" || Ascii.eqb c "C" || Ascii.eqb c "G" || Ascii.eqb c "T"
   || Ascii.eqb c "a" || Ascii.eqb c "c" || Ascii.eqb c "g"
   || Ascii.eqb c "t")%bool.

(** [.] without [re.DOTALL]: anything but a newline. *)
Definition is_any (c : ascii) : bool := negb (Ascii.eqb c "010").

(** A literal character. *)
Definition Lit (c : ascii) : regex := Class (Ascii.eqb c).

Infix "·" := Seq (at level 41, right associativity).

(** The pattern, one line of the source per line ([re.VERBOSE] drops the
    blanks and the [#] comments of the pattern). *)
Definition _STATEMENT_REGEX : regex :=
  Star is_space ·                    (* "\s*"                whitespace *)
  Group 1 (Plus is_gene_char) ·      (* "([a-zA-Z0-9_./-]+)" gene name *)
  Star is_space ·                    (* "\s*" *)
  Lit ":" ·                          (* ":" *)
  Star is_space ·                    (* "\s*" *)
  Lit "c" · Lit "." ·                (* "c\." *)
  Group 2 (Plus is_digit) ·          (* "([0-9]+)"           base number *)
  Star is_space ·                    (* "\s*" *)
  Group 3 (Class is_base) ·          (* "([ACGTacgt])"       reference base *)
  Star is_space ·                    (* "\s*" *)
  Lit ">" ·                          (* ">" *)
  Star is_space ·                    (* "\s*" *)
  Group 4 (Class is_base) ·          (* "([ACGTacgt])"       mutation base *)
  Star is_space ·                    (* "\s*" *)
  Lit "/" ·                          (* "/" *)
  Star is_space ·                    (* "\s*" *)
  Group 5 (Plus is_digit) ·          (* "([0-9]+)"           number of base pairs *)
  Star is_space ·                    (* "\s*" *)
  Group 6 (Alt (Lit "-" · Lit "-" · Star is_any)
               (Star is_space)).     (* "--.*" or "\s*"     comment *)

(** ** _parse *)

(** [int(text)] on a decimal literal with an optional sign; other text
    raises [ValueError]. (The blanks and digit separators that [int] also
    accepts are left out: no group of the pattern can hold them.) *)
Definition digit_value (c : ascii) : Z := Z.of_N (code c) - 48.

Fixpoint int_digits (acc : Z) (s : string) : result Z :=
  match s with
  | EmptyString => Ok acc
  | String c s' =>
      if is_digit c then int_digits (10 * acc + digit_value c) s'
      else Raise ValueError
  end.

(** [sys.int_info.default_max_str_digits]: the interpreter refuses to
    convert a decimal literal of more digits, with [ValueError]. (An
    interpreter from before the limit, or one where the limit is lifted,
    converts a literal of any length.) *)
Definition int_max_str_digits : Z := 4300.

Definition int_literal (ds : string) : result Z :=
  if (int_max_str_digits <? Z.of_nat (String.length ds))%Z then Raise ValueError
  else int_digits 0 ds.

Definition py_int (text : string) : result Z :=
  match text with
  | EmptyString => Raise ValueError
  | String "-" (String _ _ as ds) => z ← int_literal ds; Ok (- z)%Z
  | String "+" (String _ _ as ds) => int_literal ds
  | _ => int_literal text
  end.

(** The dictionary that [_parse] returns. *)
Record partial_spec : Type := mk_partial_spec {
  ps_gene : string;
  ps_base : Z;
  ps_reference : string;
  ps_mutation : string;
  ps_bases : Z;
  ps_comment : string
}.

(** [match.groups()], unpacked into six names. A group that took no part
    in the match would be [None] there; reading it as text is then a
    [TypeError]. *)
Definition group_text (n : nat) (caps : captures) : result string :=
  match group n caps with
  | Some text => Ok text
  | None => Raise TypeError
  end.

Definition _parse (statement : string) : result partial_spec :=
  match regex_match _STATEMENT_REGEX statement with
  | None => Raise InvalidStatement
  | Some m =>
      gene ← group_text 1 m;
      base ← group_text 2 m;
      reference ← group_text 3 m;
      mutation ← group_text 4 m;
      bases ← group_text 5 m;
      comment ← group_text 6 m;
      base' ← py_int base;
      bases' ← py_int bases;
      Ok (mk_partial_spec gene base' reference mutation bases' comment)
  end.


(** ** Ranges and transcripts *)

(** Modelled from the spec: the declaration of [SequenceRange] is in
    [probe_generator.sequence], outside the two files. "GenomicRange —
    (chromosome, start, end) half-open interval in genome coordinates, plus
    optional flags isMutationSite and reverseComplement". It is a tuple of
    five fields; the two flags are off unless given. *)
Record SequenceRange : Type := mk_SequenceRange {
  sr_chromosome : string;
  sr_start : Z;
  sr_end : Z;
  sr_mutation : bool;
  sr_reverse_complement : bool
}.

#[global] Instance SequenceRange_eq_dec : EqDecision SequenceRange.
Proof. solve_decision. Defined.

#[global] Instance SequenceRange_countable : Countable SequenceRange :=
  inj_countable'
    (fun r => (sr_chromosome r, sr_start r, sr_end r, sr_mutation r,
               sr_reverse_complement r))
    (fun t => let '(c, s, e, m, rc) := t in mk_SequenceRange c s e m rc)
    (fun r => match r with mk_SequenceRange _ _ _ _ _ => eq_refl end).

(** What [txt.nucleotide_index(base)] does: it returns the range of the
    base, or raises [transcript.OutOfRange]; [msg] is the text of the
    exception. *)
Inductive index_result : Type :=
  | Index (index : SequenceRange)
  | IndexOutOfRange (msg : string).

(** Modelled from the spec: the class of the transcripts is in
    [probe_generator.transcript], outside the two files. "Transcript —
    external entity with: name, chromosome, strand (plus/minus), and an
    operation nucleotideIndex(codingPosition) -> GenomicRange |
    OutOfRange". *)
Record Transcript : Type := mk_Transcript {
  tx_name : string;
  tx_chromosome : string;
  tx_plus_strand : bool;
  tx_nucleotide_index : Z -> index_result
}.

(** The dictionary of a probe: [dict(partial_spec, strand=..., ...)]. *)
Record spec : Type := mk_spec {
  sp_gene : string;
  sp_base : Z;
  sp_reference : string;
  sp_mutation : string;
  sp_bases : Z;
  sp_comment : string;
  sp_strand : string;
  sp_chromosome : string;
  sp_transcript : string;
  sp_index : SequenceRange;
  sp_index_base : Z
}.

Record GeneSnpProbe : Type := mk_GeneSnpProbe { _spec : spec }.

(** [len(text)] *)
Definition len (text : string) : Z := Z.of_nat (String.length text).

(** ** get_ranges

    [//] and [%] round to minus infinity, as [Z.div] and [Z.modulo] do for
    the divisor 2. *)
Definition get_ranges (self : GeneSnpProbe)
    : SequenceRange * SequenceRange * SequenceRange :=
  let '(mk_SequenceRange chromosome start end_ _ _) := sp_index (_spec self) in
  let bases := sp_bases (_spec self) in
  let chromosome := sp_chromosome (_spec self) in
  let mutation_bases := len (sp_mutation (_spec self)) in
  let left_buffer := (bases / 2)%Z in
  let left_buffer :=
    if (bases mod 2 =? 0)%Z then (left_buffer - 1)%Z else left_buffer in
  let right_buffer := (bases - left_buffer - mutation_bases)%Z in
  (mk_SequenceRange chromosome (start - left_buffer) start false false,
   mk_SequenceRange chromosome start end_ true
                    (String.eqb (sp_strand (_spec self)) "-"),
   mk_SequenceRange chromosome end_ (end_ + right_buffer) false false).

(** ** explode *)

Section explode.

(** [annotation.lookup_gene], the builtin [repr] on a string and
    [sequence.reverse_complement] come from outside the file. [row] is what
    a genome annotation is a list of. *)
Context {row : Type}.
Variable lookup_gene : string -> list row -> list Transcript.
Variable repr : string -> string.
Variable reverse_complement : string -> string.

(** What the loop of [explode] reads and writes: the dictionary
    [partial_spec], which every turn of the loop shares, the set
    [cached_coordinates], the list [probes] and the lines printed to
    [sys.stderr], oldest first. *)
Record explode_state : Type := mk_explode_state {
  es_partial_spec : partial_spec;
  es_cached_coordinates : gset (string * SequenceRange);
  es_probes : list GeneSnpProbe;
  es_stderr : list string
}.

(** [partial_spec["mutation"] = mutation] *)
Definition set_mutation (ps : partial_spec) (mutation : string) : partial_spec :=
  mk_partial_spec (ps_gene ps) (ps_base ps) (ps_reference ps) mutation
                  (ps_bases ps) (ps_comment ps).

(** [dict(partial_spec, strand=..., chromosome=..., transcript=...,
    index=..., index_base=...)] *)
Definition make_spec (ps : partial_spec) (strand chromosome transcript : string)
    (index : SequenceRange) (index_base : Z) : spec :=
  mk_spec (ps_gene ps) (ps_base ps) (ps_reference ps) (ps_mutation ps)
          (ps_bases ps) (ps_comment ps)
          strand chromosome transcript index index_base.

(** One turn of [for txt in transcripts]. *)
Definition explode_body (statement : string) (st : explode_state)
    (txt : Transcript) : explode_state :=
  let base := ps_base (es_partial_spec st) in
  let partial_spec :=
    if negb (tx_plus_strand txt) then
      set_mutation (es_partial_spec st)
                   (reverse_complement (ps_mutation (es_partial_spec st)))
    else es_partial_spec st in
  match tx_nucleotide_index txt base with
  | IndexOutOfRange error =>
      mk_explode_state partial_spec (es_cached_coordinates st) (es_probes st)
        (es_stderr st ++ [(error ++ " in statement: " ++ repr statement)%string])
  | Index index =>
      let chromosome := tx_chromosome txt in
      if decide ((chromosome, index) ∈ es_cached_coordinates st) then
        mk_explode_state partial_spec (es_cached_coordinates st) (es_probes st)
                         (es_stderr st)
      else
        let spec :=
          make_spec partial_spec
                    (if tx_plus_strand txt then "+" else "-")
                    chromosome
                    (tx_name txt)
                    index
                    (sr_start index + 1)%Z in
        mk_explode_state partial_spec
                         ({[(chromosome, index)]} ∪ es_cached_coordinates st)
                         (es_probes st ++ [mk_GeneSnpProbe spec])
                         (es_stderr st)
  end.

Definition explode_loop (statement : string) (transcripts : list Transcript)
    (st : explode_state) : explode_state :=
  fold_left (explode_body statement) transcripts st.

(** [explode(statement, genome_annotation=None)]: the probes returned and
    the lines printed, or the exception of [_parse]. *)
Definition explode (statement : string) (genome_annotation : option (list row))
    : result (list GeneSnpProbe * list string) :=
  let probes := [] in
  let genome_annotation :=
    match genome_annotation with
    | None => []
    | Some a => a
    end in
  partial_spec ← _parse statement;
  let transcripts := lookup_gene (ps_gene partial_spec) genome_annotation in
  let cached_coordinates := ∅ in
  let st := explode_loop statement transcripts
              (mk_explode_state partial_spec cached_coordinates probes []) in
  Ok (es_probes st, es_stderr st).

End explode.

End gene_snp_probe.

(** * Sample collaborators

    Small stand-ins for the collaborators whose modules are outside the two
    files, used to run the functions above on concrete inputs. *)

Module samples.
Import print_probes.

(** A genome as the list of its chromosomes, name and bases. *)
Definition genome : Type := list (string * string).

Fixpoint chromosome_bases (g : genome) (name : string) : option string :=
  match g with
  | [] => None
  | (n, bs) :: g' => if String.eqb n name then Some bs else chromosome_bases g' name
  end.

(** Modelled from the spec: [reference.bases] is outside the two files.
    "ReferenceGenome.bases(chromosome, start, end) -> sequence of base
    letters, fails with MissingChromosome if the chromosome key is absent".
    The interval is half-open. *)
Definition reference_bases (g : genome) (chromosome start end_ : pyval)
    : result string :=
  match chromosome, start, end_ with
  | PStr c, PInt s, PInt e =>
      match chromosome_bases g c with
      | None => Raise (MissingChromosome c)
      | Some bs => Ok (substring (Z.to_nat s) (Z.to_nat (e - s)) bs)
      end
  | _, _, _ => Raise TypeError
  end.

(** A resolved breakpoint: the two sides with their flags. *)
Definition coordinate (chromosome1 : string) (start1 end1 : Z)
    (chromosome2 : string) (start2 end2 : Z) : dict :=
  [("chromosome1", PStr chromosome1); ("start1", PInt start1);
   ("end1", PInt end1); ("chromosome2", PStr chromosome2);
   ("start2", PInt start2); ("end2", PInt end2);
   ("rc_side_1", PBool false); ("rc_side_2", PBool false)].

(** A coordinate resolution that takes the specification to be the
    coordinates already, and finds no feature for the empty one. *)
Definition sequence_range (spec : dict) (left_row right_row : string)
    : result dict :=
  match spec with
  | [] => Raise (NoFeatureError "no feature")
  | _ => Ok spec
  end.

Definition to_string (spec : dict) : string := "FOO#exon[1] BAR#exon[2]".
Definition breakpoint_string (coordinates : dict) : string :=
  match dict_get coordinates "chromosome1" with
  | Ok (PStr c) => c
  | _ => ""
  end.
Definition row_name (r : string) : string := r.

Fixpoint string_code (s : string) : Z :=
  match s with
  | EmptyString => 0
  | String c s' => Z.of_N (N_of_ascii c) + 131 * string_code s'
  end%Z.

(** An order-sensitive hash of a tuple of items. *)
Definition sample_hash (items : list item) : Z :=
  fold_left (fun h (it : item) =>
               (31 * h + string_code (fst it)
                + match snd it with
                  | PStr s => string_code s
                  | PInt z => z
                  | PBool b => if b then 1 else 0
                  end)%Z) items 7%Z.

Definition sample_genome : genome :=
  [("1", "AAAACCCCGGGGTTTT")].

(** Both sides on chromosome 1, which the genome has. *)
Definition found : dict := coordinate "1" 0 4 "1" 8 12.
(** A first side on chromosome 2, which the genome lacks. *)
Definition lost : dict := coordinate "2" 0 4 "1" 8 12.


(** Modelled from the spec: [annotation.lookup_gene] is outside the two
    files. "AnnotationIndex.lookupGene(geneSymbol) -> sequence of
    Transcript: produces a finite, possibly-empty ordered sequence";
    "multiple transcripts may share a gene symbol". An annotation is taken
    to be the list of the transcripts with their gene symbols; the lookup
    keeps the order of the annotation. *)
Definition lookup_gene (gene : string)
    (genome_annotation : list (string * gene_snp_probe.Transcript))
    : list gene_snp_probe.Transcript :=
  map snd (List.filter (fun r => String.eqb (fst r) gene) genome_annotation).

(** [repr] of a string that has no quote, backslash or control character
    in it. *)
Definition repr (s : string) : string := ("'" ++ s ++ "'")%string.

(** A transcript whose coding sequence has [length] bases and starts at
    [origin]; the base [b] is at [origin + b - 1] on the plus strand and at
    [origin - b] on the minus strand. *)
Definition sample_transcript (name chromosome : string) (plus_strand : bool)
    (origin length : Z) : gene_snp_probe.Transcript :=
  gene_snp_probe.mk_Transcript name chromosome plus_strand
    (fun base =>
       if (1 <=? base)%Z && (base <=? length)%Z then
         let start := if plus_strand then (origin + base - 1)%Z
                      else (origin - base)%Z in
         gene_snp_probe.Index
           (gene_snp_probe.mk_SequenceRange chromosome start (start + 1)
                                            false false)
       else
         gene_snp_probe.IndexOutOfRange
           ("Base is outside the range of transcript " ++ name)).

(** Three transcripts of one gene on the minus strand: the first two share
    the locus of every base, the third has another origin; and a short one
    on the plus strand, which the base 150 is outside of. *)
Definition minus_a := sample_transcript "uc002ict.1" "17" false 41245150 500.
Definition minus_b := sample_transcript "uc002icu.2" "17" false 41245150 900.
Definition minus_c := sample_transcript "uc002idd.3" "17" false 41255150 500.
Definition plus_d := sample_transcript "uc010whl.1" "17" true 41264851 500.
Definition short_e := sample_transcript "uc010cyx.2" "17" true 41244851 100.

Definition sample_annotation (ts : list gene_snp_probe.Transcript)
    : list (string * gene_snp_probe.Transcript) :=
  map (fun t => ("BRCA1"%string, t)) ts.

(** What to look at in a probe: the transcript, the strand, the mutation
    and the first base of the locus. *)
Definition summary (p : gene_snp_probe.GeneSnpProbe)
    : string * string * string * Z :=
  let s := gene_snp_probe._spec p in
  (gene_snp_probe.sp_transcript s, gene_snp_probe.sp_strand s,
   gene_snp_probe.sp_mutation s,
   gene_snp_probe.sr_start (gene_snp_probe.sp_index s)).

Definition explode_summary (statement : string)
    (ts : list gene_snp_probe.Transcript)
    : result (list (string * string * string * Z) * list string) :=
  r ← gene_snp_probe.explode lookup_gene repr print_probes.reverse_complement
        statement (Some (sample_annotation ts));
  Ok (map summary (fst r), snd r).

End samples.

(** More sample data. *)

Module more_samples.
Import print_probes.

(** The coordinates [samples.found] with both sides flagged for reverse
    complement. *)
Definition both_reversed : dict :=
  [("chromosome1", PStr "1"); ("start1", PInt 0); ("end1", PInt 4);
   ("chromosome2", PStr "1"); ("start2", PInt 8); ("end2", PInt 12);
   ("rc_side_1", PBool true); ("rc_side_2", PBool true)].

(** The items of [samples.found], the last first. *)
Definition found_backwards : dict := rev samples.found.

(** Coordinates without a start. *)
Definition no_start : dict := [("chromosome1", PStr "1")].

(** A probe of 21 bases around one base. *)
Definition probe_21 : gene_snp_probe.GeneSnpProbe :=
  gene_snp_probe.mk_GeneSnpProbe
    (gene_snp_probe.mk_spec "BRCA1" 150 "A" "G" 21 "" "+" "17" "uc010whl.1"
       (gene_snp_probe.mk_SequenceRange "17" 41245000 41245001 false false)
       41245001).

(** Stand-ins for the collaborators of [explode_statements]: a
    specification is the dictionary of its two genes, and the statement is
    the two gene names with a slash between them; a row is a name and a
    number of exons; [expand] gives one specification when both rows have
    exons. *)
Definition fusion_spec : Type := list (string * string).

Fixpoint split_slash (s : string) : option (string * string) :=
  match s with
  | EmptyString => None
  | String "/" rest => Some (EmptyString, rest)
  | String c rest =>
      match split_slash rest with
      | Some (a, b) => Some (String c a, b)
      | None => None
      end
  end.

Definition fusion_parse (statement : string) : result fusion_spec :=
  match split_slash statement with
  | Some (a, b) => Ok [("gene1", a); ("gene2", b)]
  | None => Raise InvalidStatement
  end.

Fixpoint fusion_get (specification : fusion_spec) (key : string)
    : result string :=
  match specification with
  | [] => Raise (KeyError key)
  | (k, v) :: rest => if String.eqb k key then Ok v else fusion_get rest key
  end.

Definition fusion_row : Type := string * nat.

Definition fusion_lookup (gene : string)
    (annotation_files : list (string * fusion_row)) : list fusion_row :=
  map snd (List.filter (fun r => String.eqb (fst r) gene) annotation_files).

Definition fusion_exons (r : fusion_row) : list unit := repeat tt (snd r).

Definition fusion_expand (specification : fusion_spec) (n m : nat)
    : result (list fusion_spec) :=
  Ok (if (0 <? n)%nat && (0 <? m)%nat then [specification] else []).

Definition fusion_annotation : list (string * fusion_row) :=
  [("FOO", ("uc001", 3)); ("FOO", ("uc002", 2)); ("BAR", ("uc003", 4))].



(** A digit repeated. *)
Fixpoint digits_of (n : nat) (c : ascii) : string :=
  match n with
  | O => EmptyString
  | S n' => String c (digits_of n' c)
  end.

End more_samples.

(** * Notions used in the statements *)

Section notions.
Import print_probes gene_snp_probe.

(** The order of two items with different keys is the order of the keys. *)
Definition key_lt (a b : item) : Prop := String.ltb (fst a) (fst b) = true.

(** Every character of [text] is in the class [p]. *)
Definition all_of (p : ascii -> bool) (text : string) : Prop :=
  forallb p (chars text) = true.

(** [text] is one character of the class [p] or more. *)
Definition some_of (p : ascii -> bool) (text : string) : Prop :=
  exists c text', text = String c text' /\ p c = true /\ all_of p text'.

(** [text] is exactly one character of the class [p]. *)
Definition one_of (p : ascii -> bool) (text : string) : Prop :=
  exists c, text = String c EmptyString /\ p c = true.

(** What a pattern matches: [Matches r text caps caps'] when [r] matches
    exactly [text] and takes the captured groups from [caps] to [caps']. *)
Inductive Matches : regex -> string -> captures -> captures -> Prop :=
  | MClass p c caps :
      p c = true -> Matches (Class p) (String c EmptyString) caps caps
  | MStar p text caps :
      all_of p text -> Matches (Star p) text caps caps
  | MPlus p c text caps :
      p c = true -> all_of p text -> Matches (Plus p) (String c text) caps caps
  | MSeq r1 r2 text1 text2 caps caps1 caps2 :
      Matches r1 text1 caps caps1 -> Matches r2 text2 caps1 caps2 ->
      Matches (Seq r1 r2) (text1 ++ text2) caps caps2
  | MAltL r1 r2 text caps caps' :
      Matches r1 text caps caps' -> Matches (Alt r1 r2) text caps caps'
  | MAltR r1 r2 text caps caps' :
      Matches r2 text caps caps' -> Matches (Alt r1 r2) text caps caps'
  | MGroup n r text caps caps' :
      Matches r text caps caps' ->
      Matches (Group n r) text caps ((n, text) :: caps').

(** The key under which [explode] remembers a probe. *)
Definition coordinate_of (p : GeneSnpProbe) : string * SequenceRange :=
  (sp_chromosome (_spec p), sp_index (_spec p)).

(** The strand that [explode] writes for a transcript. *)
Definition strand_of (t : Transcript) : string :=
  if tx_plus_strand t then "+" else "-".

(** The line that [explode] prints for a transcript that the base is out
    of the range of, if it is. *)
Definition out_of_range_line (repr : string -> string) (statement : string)
    (base : Z) (t : Transcript) : option string :=
  match tx_nucleotide_index t base with
  | IndexOutOfRange error =>
      Some (error ++ " in statement: " ++ repr statement)%string
  | Index _ => None
  end.

(** The transcript [t] has the base [base] at [i] on the chromosome [c]. *)
Definition resolves_to (base : Z) (t : Transcript) (c : string)
    (i : SequenceRange) : Prop :=
  tx_chromosome t = c /\ tx_nucleotide_index t base = Index i.

(** The probe [p] has the locus and the name and strand of [t]. *)
Definition produced_by (base : Z) (t : Transcript) (p : GeneSnpProbe) : Prop :=
  tx_nucleotide_index t base = Index (sp_index (_spec p)) /\
  sp_chromosome (_spec p) = tx_chromosome t /\
  sp_transcript (_spec p) = tx_name t /\
  sp_strand (_spec p) = strand_of t /\
  sp_index_base (_spec p) = (sr_start (sp_index (_spec p)) + 1)%Z.

(** The number of transcripts on the minus strand. *)
Definition minus_strands (ts : list Transcript) : nat :=
  List.length (List.filter (fun t => negb (tx_plus_strand t)) ts).

End notions.

(** * Further notions *)

Section more_notions.
Import print_probes gene_snp_probe.

(** The exceptions that the handler of [get_sequences] names. *)
Definition handled (e : exn) : bool :=
  match e with
  | NoFeatureError _ | MissingChromosome _ => true
  | _ => false
  end.

(** [text] is empty or starts with a character outside the class [p]. *)
Definition starts_without (p : ascii -> bool) (text : string) : Prop :=
  match text with
  | EmptyString => True
  | String c _ => p c = false
  end.

(** A comment as the pattern takes it: nothing, or [--] and the rest of
    the line. *)
Definition is_comment (comment : string) : Prop :=
  comment = ""%string \/
  exists tail, comment = ("--" ++ tail)%string /\ all_of is_any tail.

(** A statement written out: the five fields, the blanks between them and
    the comment. *)
Definition statement_text (gene base reference mutation bases comment : string)
    (ws : list string) : string :=
  (nth 0 ws "" ++ gene ++ nth 1 ws "" ++ ":" ++ nth 2 ws "" ++ "c." ++ base
   ++ nth 3 ws "" ++ reference ++ nth 4 ws "" ++ ">" ++ nth 5 ws ""
   ++ mutation ++ nth 6 ws "" ++ "/" ++ nth 7 ws "" ++ bases
   ++ nth 8 ws "" ++ comment)%string.

(** The fields of a probe that [explode] copies from the parsed statement. *)
Definition statement_fields (p : GeneSnpProbe)
    : string * Z * string * Z * string :=
  (sp_gene (_spec p), sp_base (_spec p), sp_reference (_spec p),
   sp_bases (_spec p), sp_comment (_spec p)).

End more_notions.

Section statement_notions.
Import print_probes.
Context {genome spec_t row : Type}.
Variable reference_bases : genome -> pyval -> pyval -> pyval -> result string.
Variable sequence_range : spec_t -> row -> row -> result dict.
Variable to_string : spec_t -> string.
Variable row_name : row -> string.
Variable hash : list item -> Z.

(** The line printed for a statement whose coordinates have been seen. *)
Definition redundant_line (statement : spec_t * row * row) : string :=
  (to_string (fst (fst statement)) ++ " " ++ row_name (snd (fst statement))
   ++ " " ++ row_name (snd statement)
   ++ " appears to be redundant. Skipping...")%string.

(** The statement resolves: its coordinates are [c], their bases in the
    genome [b] and their canonical key [h]. *)
Definition resolved (g : genome) (statement : spec_t * row * row)
    (c : dict) (b : string) (h : Z) : Prop :=
  sequence_range (fst (fst statement)) (snd (fst statement)) (snd statement)
    = Ok c /\
  bases_from_coordinate reference_bases c g = Ok b /\
  dict_hash hash c = Ok h.

Definition resolves (g : genome) (statement : spec_t * row * row) : Prop :=
  exists c b h, resolved g statement c b h.

End statement_notions.

(** * Properties of print_probes.py *)

Lemma chars_join cs : chars (join cs) = cs.
Proof. apply list_ascii_of_string_of_list_ascii. Qed.

Lemma join_chars s : join (chars s) = s.
Proof. apply string_of_list_ascii_of_string. Qed.

Lemma chars_length s : List.length (chars s) = String.length s.
Proof. induction s; simpl; congruence. Qed.

Section reverse_complement_facts.
Import print_probes.

Lemma chars_translate f s : chars (translate f s) = map f (chars s).
Proof. induction s as [|c s IH]; simpl; [reflexivity | now rewrite IH]. Qed.

Lemma translate_join f cs : translate f (join cs) = join (map f cs).
Proof. induction cs as [|c cs IH]; simpl; [reflexivity | now rewrite IH]. Qed.

Lemma _COMPLEMENT_involutive c : _COMPLEMENT (_COMPLEMENT c) = c.
Proof. destruct c as [[] [] [] [] [] [] [] []]; reflexivity. Qed.

Lemma reverse_complement_chars s :
  chars (reverse_complement s) = rev (map _COMPLEMENT (chars s)).
Proof.
  unfold reverse_complement, reversed.
  now rewrite chars_join, chars_translate.
Qed.

(** The involution does not need the alphabet: the table is its own
    inverse on every character. *)
Lemma reverse_complement_involutive s :
  reverse_complement (reverse_complement s) = s.
Proof.
  rewrite <- (join_chars (reverse_complement (reverse_complement s))).
  rewrite !reverse_complement_chars.
  rewrite map_rev, rev_involutive, map_map.
  rewrite (map_ext _ (fun c => c) _COMPLEMENT_involutive), map_id.
  apply join_chars.
Qed.

Lemma reverse_complement_length s :
  String.length (reverse_complement s) = String.length s.
Proof.
  rewrite <- !chars_length, reverse_complement_chars.
  now rewrite length_rev, length_map.
Qed.

(** C9: on every string over the alphabet acgtACGT, reverse_complement
    applied twice gives the string back, and one application keeps the
    length of the string. *)
Theorem reverse_complement_involution (s : string) :
  nucleotides s ->
  reverse_complement (reverse_complement s) = s /\
  String.length (reverse_complement s) = String.length s.
Proof.
  intros _. split.
  - apply reverse_complement_involutive.
  - apply reverse_complement_length.
Qed.

Lemma reverse_complement_involution_witness :
  nucleotides "acgtTGCA" /\
  reverse_complement (reverse_complement "acgtTGCA") = "acgtTGCA"%string /\
  String.length (reverse_complement "acgtTGCA") = String.length "acgtTGCA".
Proof.
  split; [reflexivity |].
  apply (reverse_complement_involution "acgtTGCA"). reflexivity.
Defined.

(** X2: The complement of a nucleotide string is a nucleotide string. *)
Lemma reverse_complement_nucleotides s :
  nucleotides s -> nucleotides (reverse_complement s).
Proof.
  unfold nucleotides. rewrite reverse_complement_chars.
  rewrite !forallb_forall. intros H c Hc.
  apply in_rev, in_map_iff in Hc. destruct Hc as (d & <- & Hd).
  specialize (H d Hd).
  destruct d as [[] [] [] [] [] [] [] []]; try discriminate H; reflexivity.
Qed.

Example reverse_complement_example :
  reverse_complement "AACg" = "cGTT"%string.
Proof. reflexivity. Qed.

End reverse_complement_facts.

(** ** dict_hash *)

Section dict_hash_facts.
Import print_probes.

Lemma ltb_lts a b : String.ltb a b = true <-> OrderedTypeEx.String_as_OT.lt a b.
Proof.
  unfold String.ltb. rewrite <- OrderedTypeEx.String_as_OT.cmp_lt.
  unfold OrderedTypeEx.String_as_OT.cmp.
  destruct (String.compare a b); split; congruence.
Qed.

Lemma ltb_irrefl a : String.ltb a a = false.
Proof.
  destruct (String.ltb a a) eqn:E; [|reflexivity].
  apply ltb_lts, OrderedTypeEx.String_as_OT.lt_not_eq in E. now destruct E.
Qed.

Lemma ltb_trans a b c :
  String.ltb a b = true -> String.ltb b c = true -> String.ltb a c = true.
Proof.
  rewrite !ltb_lts. apply OrderedTypeEx.String_as_OT.lt_trans.
Qed.

Lemma ltb_connex a b :
  a <> b -> String.ltb a b = false -> String.ltb b a = true.
Proof.
  unfold String.ltb. intros Hne.
  rewrite (String.compare_antisym a b).
  destruct (String.compare b a) eqn:E; simpl; try congruence.
  apply String.compare_eq_iff in E. congruence.
Qed.

#[local] Instance key_lt_trans : Transitive key_lt.
Proof. intros a b c. apply ltb_trans. Qed.

#[local] Instance key_lt_antisym : AntiSymm (=) key_lt.
Proof.
  intros a b Hab Hba. unfold key_lt in *.
  pose proof (ltb_trans _ _ _ Hab Hba) as H.
  rewrite ltb_irrefl in H. discriminate.
Qed.

Lemma item_lt_keys a b :
  fst a <> fst b -> item_lt a b = Ok (String.ltb (fst a) (fst b)).
Proof.
  intros Hne. unfold item_lt.
  destruct (String.eqb_spec (fst a) (fst b)); [contradiction | reflexivity].
Qed.

(** Inserting an item whose key is new into a list sorted by key never
    compares two values, so it cannot fail, and gives a list sorted by key. *)
Lemma sorted_insert_spec x l :
  fst x ∉ map fst l ->
  StronglySorted key_lt l ->
  exists l', sorted_insert x l = Ok l' /\ l' ≡ₚ x :: l /\ StronglySorted key_lt l'.
Proof.
  induction l as [|y l IH]; intros Hx Hs; simpl.
  - exists [x]. repeat split; [|constructor; constructor]. reflexivity.
  - apply not_elem_of_cons in Hx as [Hxy Hx].
    apply StronglySorted_inv in Hs as [Hs Hy].
    rewrite item_lt_keys by congruence. simpl.
    destruct (String.ltb (fst y) (fst x)) eqn:E.
    + destruct (IH Hx Hs) as (l' & -> & Hp & Hs'). simpl.
      exists (y :: l'). split; [reflexivity|]. split.
      * rewrite Hp. apply Permutation_swap.
      * constructor; [assumption|].
        rewrite Hp. constructor; assumption.
    + exists (x :: y :: l). split; [reflexivity|]. split; [reflexivity|].
      assert (Hlt : key_lt x y) by (apply ltb_connex; congruence).
      constructor; [constructor; assumption|].
      constructor; [assumption|].
      eapply Forall_impl; [exact Hy|].
      intros z Hz. etransitivity; eassumption.
Qed.

Lemma sorted_spec (d : dict) :
  NoDup (map fst d) ->
  exists l, sorted d = Ok l /\ l ≡ₚ d /\ StronglySorted key_lt l.
Proof.
  induction d as [|x d IH]; intros Hnd; simpl.
  - exists []. repeat split; constructor.
  - apply NoDup_cons in Hnd as [Hx Hnd].
    destruct (IH Hnd) as (l & -> & Hp & Hs). simpl.
    destruct (sorted_insert_spec x l) as (l' & Hl' & Hp' & Hs'); [|assumption|].
    + now rewrite Hp.
    + exists l'. split; [assumption|]. split; [|assumption].
      now rewrite Hp', Hp.
Qed.

(** Two dictionaries with the same items are sorted into the same list. *)
Lemma sorted_order_independent (d1 d2 : dict) :
  NoDup (map fst d1) -> d1 ≡ₚ d2 ->
  exists l, sorted d1 = Ok l /\ sorted d2 = Ok l.
Proof.
  intros Hnd Hp.
  assert (Hnd2 : NoDup (map fst d2)) by now rewrite <- Hp.
  destruct (sorted_spec d1 Hnd) as (l1 & H1 & Hp1 & Hs1).
  destruct (sorted_spec d2 Hnd2) as (l2 & H2 & Hp2 & Hs2).
  assert (l1 = l2) as ->.
  { apply (StronglySorted_unique key_lt); [assumption..|].
    now rewrite Hp1, Hp2. }
  eauto.
Qed.

(** C7: two coordinate dictionaries that hold the same key-value pairs, in
    whatever order the pairs were inserted, get the same canonical key from
    dict_hash (and dict_hash returns on both). *)
Theorem dict_hash_order_independent (hash : list item -> Z) (d1 d2 : dict) :
  NoDup (map fst d1) ->
  d1 ≡ₚ d2 ->
  exists h, dict_hash hash d1 = Ok h /\ dict_hash hash d2 = Ok h.
Proof.
  intros Hnd Hp.
  destruct (sorted_order_independent d1 d2 Hnd Hp) as (l & H1 & H2).
  exists (hash l). unfold dict_hash. now rewrite H1, H2.
Qed.

End dict_hash_facts.

Lemma dict_hash_order_independent_witness :
  exists h,
    print_probes.dict_hash samples.sample_hash
      [("start1", print_probes.PInt 5); ("chromosome1", print_probes.PStr "1")]
      = Ok h /\
    print_probes.dict_hash samples.sample_hash
      [("chromosome1", print_probes.PStr "1"); ("start1", print_probes.PInt 5)]
      = Ok h.
Proof.
  apply dict_hash_order_independent.
  - apply (bool_decide_unpack _). vm_compute. reflexivity.
  - apply Permutation_swap.
Defined.

(** ** get_sequences *)

Section get_sequences_facts.
Import print_probes.
Context {genome spec_t row : Type}.
Variable reference_bases : genome -> pyval -> pyval -> pyval -> result string.
Variable sequence_range : spec_t -> row -> row -> result dict.
Variable to_string : spec_t -> string.
Variable breakpoint_string : dict -> string.
Variable row_name : row -> string.
Variable hash : list item -> Z.

Abbreviation get_sequences :=
  (get_sequences reference_bases sequence_range to_string breakpoint_string
                 row_name hash).
Abbreviation bases_from_coordinate := (bases_from_coordinate reference_bases).
Abbreviation probe_name := (probe_name to_string breakpoint_string row_name).

(** X11: When the first statement has no feature, the handler prints and the
    statements after the [try] run without [coordinate]: the iteration ends
    with [UnboundLocalError], whatever statements follow. *)
Lemma get_sequences_first_failure_is_fatal
    (spec : spec_t) (l r : row) rest (g : genome) msg :
  sequence_range spec l r = Raise (NoFeatureError msg) ->
  get_sequences ((spec, l, r) :: rest) g =
    mk_gs_outcome [] [(msg ++ ". Skipping...")%string]
                  (Some (UnboundLocalError "coordinate")).
Proof.
  intros H. unfold print_probes.get_sequences. simpl.
  unfold gs_try. rewrite H. reflexivity.
Qed.

(** C4, as the code has it: a statement whose bases cannot be fetched
    because a chromosome is missing is reported as skipped, and is then
    yielded all the same, under its own name, with the bases of the
    statement before it. *)
Theorem get_sequences_failure_not_skipped
    (spec1 spec2 : spec_t) (l1 r1 l2 r2 : row) (g : genome)
    (c1 c2 : dict) (b1 msg : string) (h1 h2 : Z) :
  sequence_range spec1 l1 r1 = Ok c1 ->
  bases_from_coordinate c1 g = Ok b1 ->
  sequence_range spec2 l2 r2 = Ok c2 ->
  bases_from_coordinate c2 g = Raise (MissingChromosome msg) ->
  dict_hash hash c1 = Ok h1 ->
  dict_hash hash c2 = Ok h2 ->
  h1 <> h2 ->
  get_sequences [(spec1, l1, r1); (spec2, l2, r2)] g =
    mk_gs_outcome [(probe_name spec1 c1 l1 r1, b1);
                   (probe_name spec2 c2 l2 r2, b1)]
                  [(msg ++ ". Skipping...")%string]
                  None.
Proof.
  intros Hs1 Hb1 Hs2 Hb2 Hh1 Hh2 Hne.
  unfold print_probes.get_sequences. simpl.
  unfold gs_try. rewrite Hs1, Hb1. simpl.
  unfold gs_emit. simpl. rewrite Hh1. simpl.
  destruct (decide (h1 ∈ (∅ : gset Z))) as [Hin|_]; [now apply not_elem_of_empty in Hin|].
  rewrite Hs2, Hb2. simpl. rewrite Hh2. simpl.
  destruct (decide (h2 ∈ ({[h1]} ∪ ∅ : gset Z))) as [Hin|_].
  { apply elem_of_union in Hin as [Hin|Hin].
    - apply elem_of_singleton in Hin. congruence.
    - now apply not_elem_of_empty in Hin. }
  reflexivity.
Qed.

End get_sequences_facts.

Lemma get_sequences_failure_not_skipped_witness :
  print_probes.get_sequences samples.reference_bases samples.sequence_range
    samples.to_string samples.breakpoint_string samples.row_name
    samples.sample_hash
    [(samples.found, "uc001", "uc002"); (samples.lost, "uc003", "uc004")]
    samples.sample_genome
  = print_probes.mk_gs_outcome
      [("FOO#exon[1] BAR#exon[2]_1_uc001_uc002", "AAAAGGGG");
       ("FOO#exon[1] BAR#exon[2]_2_uc003_uc004", "AAAAGGGG")]
      ["2. Skipping..."]
      None.
Proof.
  eapply (get_sequences_failure_not_skipped
           samples.reference_bases samples.sequence_range samples.to_string
           samples.breakpoint_string samples.row_name samples.sample_hash
           samples.found samples.lost "uc001" "uc002" "uc003" "uc004"
           samples.sample_genome samples.found samples.lost
           "AAAAGGGG" "2").
  1-6: vm_compute; reflexivity.
  vm_compute. intros H. discriminate H.
Defined.

(** * Properties of gene_snp_probe.py *)

(** ** get_ranges *)

Section get_ranges_facts.
Import gene_snp_probe.
Local Open Scope Z_scope.

Lemma even_mod2 z : (z mod 2 =? 0) = Z.even z.
Proof.
  rewrite Zmod_even. destruct (Z.even z); reflexivity.
Qed.

(** The left buffer in closed form: one less than half on an even total,
    the rounded-down half on an odd one. *)
Lemma left_buffer_closed_form bases :
  (if Z.even bases then bases / 2 - 1 else bases / 2) = (bases - 1) / 2.
Proof.
  destruct (Z.even bases) eqn:E.
  - apply Z.even_spec in E as [k ->].
    rewrite (Z.mul_comm 2 k), Z.div_mul by lia.
    apply Z.div_unique with (r := 1); lia.
  - assert (Ho : Z.odd bases = true) by (rewrite <- Z.negb_even, E; reflexivity).
    apply Z.odd_spec in Ho as [k ->].
    replace (2 * k + 1 - 1) with (k * 2) by lia.
    rewrite Z.div_mul by lia.
    symmetry. apply Z.div_unique with (r := 1); lia.
Qed.

(** [get_ranges] with the parity test read as [Z.even]. *)
Lemma get_ranges_unfold (self : GeneSnpProbe) :
  let s := _spec self in
  let left_buffer :=
    if Z.even (sp_bases s) then sp_bases s / 2 - 1 else sp_bases s / 2 in
  get_ranges self =
    (mk_SequenceRange (sp_chromosome s)
                      (sr_start (sp_index s) - left_buffer)
                      (sr_start (sp_index s)) false false,
     mk_SequenceRange (sp_chromosome s) (sr_start (sp_index s))
                      (sr_end (sp_index s)) true
                      (String.eqb (sp_strand s) "-"),
     mk_SequenceRange (sp_chromosome s) (sr_end (sp_index s))
                      (sr_end (sp_index s)
                       + (sp_bases s - left_buffer - len (sp_mutation s)))
                      false false).
Proof.
  destruct self as [s]. cbn zeta. cbn [_spec].
  unfold get_ranges. cbn [_spec].
  destruct (sp_index s) as [c st en m rc]. cbn [sr_start sr_end].
  rewrite even_mod2.
  destruct (Z.even (sp_bases s)); reflexivity.
Qed.

(** C1: get_ranges takes leftBuffer = bases // 2, one less when bases is
    even, and rightBuffer = bases - leftBuffer - mutationBases; the three
    lengths add up to bases; the ranges returned are the left flank
    [start - leftBuffer, start), the mutation site [start, end), flagged as
    the mutation site and for reverse complement exactly on the minus
    strand, and the right flank [end, end + rightBuffer). *)
Theorem get_ranges_buffers (self : GeneSnpProbe) :
  let s := _spec self in
  let bases := sp_bases s in
  let mutationBases := len (sp_mutation s) in
  let start := sr_start (sp_index s) in
  let end_ := sr_end (sp_index s) in
  let leftBuffer := if Z.even bases then bases / 2 - 1 else bases / 2 in
  let rightBuffer := bases - leftBuffer - mutationBases in
  leftBuffer + mutationBases + rightBuffer = bases /\
  get_ranges self =
    (mk_SequenceRange (sp_chromosome s) (start - leftBuffer) start false false,
     mk_SequenceRange (sp_chromosome s) start end_ true
                      (bool_decide (sp_strand s = "-"%string)),
     mk_SequenceRange (sp_chromosome s) end_ (end_ + rightBuffer) false false).
Proof.
  cbn zeta. split; [lia|].
  rewrite get_ranges_unfold. cbn zeta.
  assert (Hs : String.eqb (sp_strand (_spec self)) "-"
               = bool_decide (sp_strand (_spec self) = "-"%string)).
  { destruct (String.eqb_spec (sp_strand (_spec self)) "-") as [->| Hne].
    - reflexivity.
    - symmetry. now apply bool_decide_eq_false. }
  now rewrite Hs.
Qed.

(** The flanks for every parity of the total and every length of the
    allele from 1 to 3. *)
Lemma get_ranges_flank_lengths (self : GeneSnpProbe) (k : Z) :
  let '(lflank, site, rflank) := get_ranges self in
  let mutationBases := len (sp_mutation (_spec self)) in
  (sp_bases (_spec self) = 2 * k ->
     sr_end lflank - sr_start lflank = k - 1 /\
     sr_end rflank - sr_start rflank = k + 1 - mutationBases) /\
  (sp_bases (_spec self) = 2 * k + 1 ->
     sr_end lflank - sr_start lflank = k /\
     sr_end rflank - sr_start rflank = k + 1 - mutationBases).
Proof.
  pose proof (get_ranges_unfold self) as H. cbn zeta in H. rewrite H.
  cbn [sr_start sr_end].
  rewrite left_buffer_closed_form.
  split; intros ->.
  - replace ((2 * k - 1) / 2) with (k - 1)
      by (apply Z.div_unique with (r := 1); lia). lia.
  - replace ((2 * k + 1 - 1) / 2) with k
      by (apply Z.div_unique with (r := 0); lia). lia.
Qed.

End get_ranges_facts.

(** ** The statement grammar *)

Section parse_facts.
Import gene_snp_probe.

Lemma append_nil_r s : (s ++ "")%string = s.
Proof.
  induction s as [|c s IH]; [reflexivity | exact (f_equal (String c) IH)].
Qed.

Lemma append_assoc (a b c : string) : ((a ++ b) ++ c = a ++ (b ++ c))%string.
Proof.
  induction a as [|x a IH]; [reflexivity | exact (f_equal (String x) IH)].
Qed.

Lemma length_append (a b : string) :
  String.length (a ++ b) = String.length a + String.length b.
Proof.
  induction a as [|x a IH]; [reflexivity | exact (f_equal S IH)].
Qed.

Lemma substring_prefix (pre rest : string) :
  substring 0 (String.length pre) (pre ++ rest) = pre.
Proof.
  induction pre as [|c pre IH].
  - destruct rest; reflexivity.
  - exact (f_equal (String c) IH).
Qed.

Lemma consumed_app pre rest : consumed (pre ++ rest) rest = pre.
Proof.
  unfold consumed. rewrite length_append.
  replace (String.length pre + String.length rest - String.length rest)
    with (String.length pre) by lia.
  apply substring_prefix.
Qed.

Lemma all_of_nil p : all_of p "".
Proof. reflexivity. Qed.

Lemma all_of_cons p c s : p c = true -> all_of p s -> all_of p (String c s).
Proof. unfold all_of. simpl. now intros -> ->. Qed.

Lemma or_else_Some {A} (a b : option A) x :
  or_else a b = Some x -> a = Some x \/ b = Some x.
Proof. destruct a; simpl; auto. Qed.

(** A greedy repetition hands to the rest of the pattern what is left
    after some characters of the class. *)
Lemma star_sound {A} p s (k : string -> option A) a :
  star p s k = Some a ->
  exists text rest, s = (text ++ rest)%string /\ all_of p text /\ k rest = Some a.
Proof.
  induction s as [|c s IH]; simpl; intros H.
  - exists ""%string, ""%string. auto using all_of_nil.
  - destruct (p c) eqn:Hc.
    + apply or_else_Some in H as [H|H].
      * destruct (IH H) as (text & rest & -> & Hall & Hk).
        exists (String c text), rest. auto using all_of_cons.
      * exists ""%string, (String c s). auto using all_of_nil.
    + exists ""%string, (String c s). auto using all_of_nil.
Qed.

(** The matcher only finds what the pattern matches. *)
Lemma re_match_sound {A} r : forall s caps (k : string -> captures -> option A) a,
  re_match r s caps k = Some a ->
  exists text rest caps',
    s = (text ++ rest)%string /\ Matches r text caps caps' /\
    k rest caps' = Some a.
Proof.
  induction r as [p|p|p|r1 IH1 r2 IH2|r1 IH1 r2 IH2|n r IH];
    intros s caps k a H; simpl in H.
  - destruct s as [|c s]; [discriminate|].
    destruct (p c) eqn:Hc; [|discriminate].
    exists (String c ""), s, caps. split; [reflexivity|].
    split; [now constructor | assumption].
  - apply star_sound in H as (text & rest & -> & Hall & Hk).
    exists text, rest, caps. split; [reflexivity|].
    split; [now constructor | assumption].
  - destruct s as [|c s]; [discriminate|].
    destruct (p c) eqn:Hc; [|discriminate].
    apply star_sound in H as (text & rest & -> & Hall & Hk).
    exists (String c text), rest, caps. split; [reflexivity|].
    split; [now constructor | assumption].
  - apply IH1 in H as (text1 & rest1 & caps1 & -> & H1 & H).
    apply IH2 in H as (text2 & rest2 & caps2 & -> & H2 & H).
    exists (text1 ++ text2)%string, rest2, caps2.
    split; [symmetry; apply append_assoc|].
    split; [econstructor; eassumption | assumption].
  - apply or_else_Some in H as [H|H].
    + apply IH1 in H as (text & rest & caps' & -> & H1 & H).
      exists text, rest, caps'. split; [reflexivity|].
      split; [now apply MAltL | assumption].
    + apply IH2 in H as (text & rest & caps' & -> & H2 & H).
      exists text, rest, caps'. split; [reflexivity|].
      split; [now apply MAltR | assumption].
  - apply IH in H as (text & rest & caps' & -> & Hm & H).
    rewrite consumed_app in H.
    exists text, rest, ((n, text) :: caps'). split; [reflexivity|].
    split; [now constructor | assumption].
Qed.

Lemma regex_match_sound r s m :
  regex_match r s = Some m ->
  exists text rest, s = (text ++ rest)%string /\ Matches r text [] m.
Proof.
  unfold regex_match. intros H.
  apply re_match_sound in H as (text & rest & caps' & -> & Hm & [= ->]).
  eauto.
Qed.

Ltac invert_matches :=
  repeat match goal with
  | H : Matches (Seq _ _) _ _ _ |- _ => inversion H; subst; clear H
  | H : Matches (Group _ _) _ _ _ |- _ => inversion H; subst; clear H
  | H : Matches (Alt _ _) _ _ _ |- _ => inversion H; subst; clear H
  | H : Matches (Class _) _ _ _ |- _ => inversion H; subst; clear H
  | H : Matches (Star _) _ _ _ |- _ => inversion H; subst; clear H
  | H : Matches (Plus _) _ _ _ |- _ => inversion H; subst; clear H
  | H : Matches (Lit _) _ _ _ |- _ => unfold Lit in H
  end.

(** The six groups of a match of the pattern: all six take part, and each
    holds what its class says. *)
Lemma statement_groups text m :
  Matches _STATEMENT_REGEX text [] m ->
  exists gene base reference mutation bases comment,
    m = [(6, comment); (5, bases); (4, mutation); (3, reference); (2, base);
         (1, gene)] /\
    some_of is_gene_char gene /\ some_of is_digit base /\
    one_of is_base reference /\ one_of is_base mutation /\
    some_of is_digit bases /\
    (all_of is_space comment \/
     exists tail, comment = ("--" ++ tail)%string /\ all_of is_any tail).
Proof.
  unfold _STATEMENT_REGEX. intros H. invert_matches.
  all: do 6 eexists; split; [reflexivity|].
  all: unfold some_of, one_of; repeat split; eauto.
  right. eexists. split; [|eassumption].
  match goal with
  | H : Ascii.eqb "-" ?c = true |- _ => apply Ascii.eqb_eq in H; subst c
  end.
  match goal with
  | H : Ascii.eqb "-" ?c = true |- _ => apply Ascii.eqb_eq in H; subst c
  end.
  reflexivity.
Qed.


Lemma is_digit_value c :
  is_digit c = true -> (0 <= digit_value c <= 9)%Z.
Proof.
  unfold is_digit, in_range, digit_value. intros H.
  apply andb_true_iff in H as [H1 H2].
  apply N.leb_le in H1, H2.
  change (code "0") with 48%N in H1. change (code "9") with 57%N in H2.
  lia.
Qed.

Lemma int_digits_digits text : forall acc,
  (0 <= acc)%Z -> all_of is_digit text ->
  exists z, int_digits acc text = Ok z /\ (acc <= z)%Z.
Proof.
  induction text as [|c text IH]; intros acc Hacc Hall; simpl.
  - exists acc. split; [reflexivity | lia].
  - unfold all_of in Hall. simpl in Hall.
    apply andb_true_iff in Hall as [Hc Hall]. rewrite Hc.
    pose proof (is_digit_value c Hc).
    destruct (IH (10 * acc + digit_value c)%Z) as (z & Hz & Hle);
      [lia | exact Hall |].
    exists z. split; [assumption | lia].
Qed.

(** [int] of a group of digits: there is no sign in the group, so the
    text is converted as a literal. *)
Lemma py_int_digits text :
  some_of is_digit text -> py_int text = int_literal text.
Proof.
  intros (c & text' & -> & Hc & Hall).
  destruct c as [[] [] [] [] [] [] [] []]; try discriminate Hc; reflexivity.
Qed.

(** It is the number that the digits spell, which is not negative, unless
    the digits are more than the interpreter converts. *)
Lemma py_int_outcome text :
  some_of is_digit text ->
  (exists z, py_int text = Ok z /\ (0 <= z)%Z) \/
  (py_int text = Raise ValueError /\
   (int_max_str_digits < Z.of_nat (String.length text))%Z).
Proof.
  intros Hd. rewrite (py_int_digits text Hd). unfold int_literal.
  destruct (Z.ltb_spec int_max_str_digits (Z.of_nat (String.length text)))
    as [Hlong|Hshort].
  - right. auto.
  - left. destruct Hd as (c & text' & -> & Hc & Hall).
    apply int_digits_digits; [lia | now apply all_of_cons].
Qed.

Lemma py_int_short text :
  some_of is_digit text ->
  (Z.of_nat (String.length text) <= int_max_str_digits)%Z ->
  exists z, py_int text = Ok z /\ (0 <= z)%Z.
Proof.
  intros Hd Hlen.
  destruct (py_int_outcome text Hd) as [H|[_ H]]; [exact H | lia].
Qed.

Lemma py_int_Ok text z :
  some_of is_digit text -> py_int text = Ok z -> (0 <= z)%Z.
Proof.
  intros Hd Hz.
  destruct (py_int_outcome text Hd) as [(z' & Hz' & H0)|[Hv _]]; congruence.
Qed.

(** What [_parse] returns when it returns. *)
Lemma _parse_Ok statement ps :
  _parse statement = Ok ps ->
  some_of is_gene_char (ps_gene ps) /\ (0 <= ps_base ps)%Z /\
  one_of is_base (ps_reference ps) /\ one_of is_base (ps_mutation ps) /\
  (0 <= ps_bases ps)%Z.
Proof.
  unfold _parse. intros H.
  destruct (regex_match _STATEMENT_REGEX statement) as [m|] eqn:Hm;
    [|discriminate].
  apply regex_match_sound in Hm as (text & rest & _ & Hm).
  apply statement_groups in Hm
    as (gene & base & reference & mutation & bases & comment & -> &
        Hgene & Hbase & Href & Hmut & Hbases & _).
  cbn in H.
  destruct (py_int base) as [zb|] eqn:Hzb; [|discriminate H].
  destruct (py_int bases) as [zn|] eqn:Hzn; [|discriminate H].
  cbn in H. injection H as <-. cbn.
  pose proof (py_int_Ok base zb Hbase Hzb).
  pose proof (py_int_Ok bases zn Hbases Hzn). auto.
Qed.

(** The deviations that the grammar does refuse: no [c.] marker, a
    reference of two letters, no [/bases] suffix, a letter for the base
    number, a mutation of two letters. *)
Example _parse_rejections :
  _parse "BRCA1:150A>G/21" = Raise InvalidStatement /\
  _parse "BRCA1:c.150AC>G/21" = Raise InvalidStatement /\
  _parse "BRCA1:c.150A>G" = Raise InvalidStatement /\
  _parse "BRCA1:c.x50A>G/21" = Raise InvalidStatement /\
  _parse "BRCA1:c.150A>GT/21" = Raise InvalidStatement.
Proof. repeat split; vm_compute; reflexivity. Qed.

Example _parse_comment :
  _parse "  BRCA1 : c.150 A > g / 21  -- exon 5" =
    Ok (mk_partial_spec "BRCA1" 150 "A" "g" 21 "-- exon 5").
Proof. vm_compute. reflexivity. Qed.

(** C5, as the code has it: the pattern is tried with [match], which only
    ties it to the start of the line, and its last group can be empty; so
    what follows a complete statement is not looked at, and a line with
    more tokens after the statement is parsed, with an empty comment,
    where InvalidStatement was to be raised. *)
Theorem _parse_accepts_trailing_tokens :
  _parse "BRCA1:c.150A>G/21 extra tokens" =
    Ok (mk_partial_spec "BRCA1" 150 "A" "G" 21 "").
Proof. vm_compute. reflexivity. Qed.

(** C8, as stated, fails: the digits of the two numbers may spell zero. *)
Lemma _parse_zero_base_and_bases :
  exists ps, _parse "BRCA1:c.0A>G/0" = Ok ps /\
             ~ ((0 < ps_base ps)%Z /\ (0 < ps_bases ps)%Z).
Proof.
  exists (mk_partial_spec "BRCA1" 0 "A" "G" 0 "").
  split; [vm_compute; reflexivity | cbn; lia].
Qed.

(** C8, amended: for every statement that the grammar accepts, the [base]
    and the [bases] of the result are integers that are not negative. *)
Theorem _parse_base_and_bases_nonnegative statement ps :
  _parse statement = Ok ps ->
  (0 <= ps_base ps)%Z /\ (0 <= ps_bases ps)%Z.
Proof.
  intros H. apply _parse_Ok in H. tauto.
Qed.

Lemma _parse_base_and_bases_nonnegative_witness :
  (0 <= ps_base (mk_partial_spec "BRCA1" 150 "A" "G" 21 ""))%Z /\
  (0 <= ps_bases (mk_partial_spec "BRCA1" 150 "A" "G" 21 ""))%Z.
Proof.
  apply (_parse_base_and_bases_nonnegative "BRCA1:c.150A>G/21").
  vm_compute. reflexivity.
Defined.

End parse_facts.

(** ** explode *)

Section explode_facts.
Import gene_snp_probe.
Context {row : Type}.
Variable lookup_gene : string -> list row -> list Transcript.
Variable repr : string -> string.
Variable reverse_complement : string -> string.

Abbreviation body := (explode_body repr reverse_complement).
Abbreviation loop := (explode_loop repr reverse_complement).
Abbreviation rc_times n := (Nat.iter n reverse_complement).

Lemma loop_cons statement t ts st :
  loop statement (t :: ts) st = loop statement ts (body statement st t).
Proof. reflexivity. Qed.

Lemma loop_app statement ts1 ts2 st :
  loop statement (ts1 ++ ts2) st = loop statement ts2 (loop statement ts1 st).
Proof. unfold explode_loop. apply fold_left_app. Qed.

Lemma set_mutation_same ps : set_mutation ps (ps_mutation ps) = ps.
Proof. destruct ps; reflexivity. Qed.

Lemma set_mutation_twice ps m1 m2 :
  set_mutation (set_mutation ps m1) m2 = set_mutation ps m2.
Proof. reflexivity. Qed.

(** The dictionary after one turn: only the mutation can have changed, and
    it has on the minus strand. *)
Lemma body_partial_spec statement st t :
  es_partial_spec (body statement st t) =
    set_mutation (es_partial_spec st)
      (if tx_plus_strand t then ps_mutation (es_partial_spec st)
       else reverse_complement (ps_mutation (es_partial_spec st))).
Proof.
  unfold explode_body.
  destruct (tx_plus_strand t); cbn [negb];
    rewrite ?set_mutation_same;
    destruct (tx_nucleotide_index t _); try case_decide; reflexivity.
Qed.

Lemma rc_times_shift n m :
  rc_times n (reverse_complement m) = reverse_complement (rc_times n m).
Proof. induction n as [|n IH]; simpl; congruence. Qed.

(** The dictionary after the loop: the mutation has been complemented once
    for every transcript on the minus strand, whether the transcript gave a
    probe or not. *)
Lemma loop_partial_spec statement ts : forall st,
  es_partial_spec (loop statement ts st) =
    set_mutation (es_partial_spec st)
      (rc_times (minus_strands ts) (ps_mutation (es_partial_spec st))).
Proof.
  induction ts as [|t ts IH]; intros st.
  - cbn. symmetry. apply set_mutation_same.
  - rewrite loop_cons, IH, body_partial_spec. unfold minus_strands.
    cbn [List.filter]. destruct (tx_plus_strand t); cbn [negb].
    + now rewrite set_mutation_same.
    + cbn [List.length]. rewrite set_mutation_twice. cbn [ps_mutation set_mutation].
      f_equal. rewrite rc_times_shift. reflexivity.
Qed.

Lemma loop_base statement ts st :
  ps_base (es_partial_spec (loop statement ts st)) = ps_base (es_partial_spec st).
Proof. now rewrite loop_partial_spec. Qed.

(** One turn on a transcript that the base is out of the range of: a line
    is printed, and the probes and the coordinates seen stay as they are. *)
Lemma body_out_of_range statement st t msg :
  tx_nucleotide_index t (ps_base (es_partial_spec st)) = IndexOutOfRange msg ->
  es_probes (body statement st t) = es_probes st /\
  es_cached_coordinates (body statement st t) = es_cached_coordinates st /\
  es_stderr (body statement st t) =
    es_stderr st ++ [(msg ++ " in statement: " ++ repr statement)%string].
Proof. unfold explode_body. intros ->. auto. Qed.

(** One turn on a transcript whose locus has been seen: nothing changes
    but the shared mutation. *)
Lemma body_seen statement st t i :
  tx_nucleotide_index t (ps_base (es_partial_spec st)) = Index i ->
  (tx_chromosome t, i) ∈ es_cached_coordinates st ->
  es_probes (body statement st t) = es_probes st /\
  es_cached_coordinates (body statement st t) = es_cached_coordinates st /\
  es_stderr (body statement st t) = es_stderr st.
Proof.
  unfold explode_body. intros -> Hin. rewrite decide_True by assumption. auto.
Qed.

(** One turn on a transcript whose locus is new: one probe is appended,
    made of the dictionary as it is now and of the transcript. *)
Lemma body_new statement st t i :
  tx_nucleotide_index t (ps_base (es_partial_spec st)) = Index i ->
  (tx_chromosome t, i) ∉ es_cached_coordinates st ->
  es_probes (body statement st t) =
    es_probes st ++
    [mk_GeneSnpProbe
       (make_spec (es_partial_spec (body statement st t)) (strand_of t)
                  (tx_chromosome t) (tx_name t) i (sr_start i + 1)%Z)] /\
  es_cached_coordinates (body statement st t) =
    {[(tx_chromosome t, i)]} ∪ es_cached_coordinates st /\
  es_stderr (body statement st t) = es_stderr st.
Proof.
  intros Hi Hnin. rewrite body_partial_spec.
  unfold explode_body. rewrite Hi. rewrite decide_False by assumption.
  unfold strand_of.
  destruct (tx_plus_strand t); cbn [negb]; rewrite ?set_mutation_same; auto.
Qed.

(** The loop, from any state: the probes appended have pairwise different
    loci, none of them seen before; each comes from a transcript that has
    the base; the loci seen are those seen before and those of the new
    probes; and one line is printed for each transcript that has not the
    base, in the order of the transcripts. *)
Lemma loop_spec statement ts : forall st,
  exists new,
    es_probes (loop statement ts st) = es_probes st ++ new /\
    es_cached_coordinates (loop statement ts st) =
      list_to_set (coordinate_of <$> new) ∪ es_cached_coordinates st /\
    es_stderr (loop statement ts st) =
      es_stderr st ++
      omap (out_of_range_line repr statement (ps_base (es_partial_spec st))) ts /\
    NoDup (coordinate_of <$> new) /\
    Forall (fun p => (coordinate_of p ∉ es_cached_coordinates st) /\
                     (exists t, t ∈ ts /\
                        produced_by (ps_base (es_partial_spec st)) t p)) new.
Proof.
  induction ts as [|t ts IH]; intros st.
  - exists []. cbn. rewrite !app_nil_r, union_empty_l_L.
    repeat split; constructor.
  - rewrite loop_cons.
    destruct (IH (body statement st t)) as (new & Hp & Hc & He & Hnd & Hall).
    rewrite body_partial_spec in He, Hall. cbn [set_mutation ps_base] in He, Hall.
    pose proof (eq_refl (out_of_range_line repr statement
                           (ps_base (es_partial_spec st)) t)) as Hl.
    unfold out_of_range_line at 2 in Hl.
    cbn [omap list_omap].
    destruct (tx_nucleotide_index t (ps_base (es_partial_spec st)))
      as [i|msg] eqn:Hi; rewrite Hl; clear Hl.
    + destruct (decide ((tx_chromosome t, i) ∈ es_cached_coordinates st))
        as [Hin|Hnin].
      * destruct (body_seen statement st t i Hi Hin) as (Hp' & Hc' & He').
        exists new. rewrite Hp, Hc, He, Hp', Hc', He'.
        repeat split; try assumption.
        eapply Forall_impl; [exact Hall|]. cbn.
        intros p [Hn (t' & Ht' & Hprod)]. rewrite Hc' in Hn.
        split; [assumption|]. exists t'. split; [now right | assumption].
      * destruct (body_new statement st t i Hi Hnin) as (Hp' & Hc' & He').
        set (p := mk_GeneSnpProbe _) in Hp'.
        assert (Hcp : coordinate_of p = (tx_chromosome t, i)) by reflexivity.
        assert (Hfresh : Forall (fun q => coordinate_of q <> coordinate_of p) new).
        { eapply Forall_impl; [exact Hall|]. cbn.
          intros q [Hn _] Heq. apply Hn. rewrite Hc', Heq, Hcp.
          apply elem_of_union_l. now apply elem_of_singleton. }
        exists (p :: new). rewrite Hp, Hc, He, Hp', Hc', He'.
        split; [now rewrite <- app_assoc|].
        split.
        { rewrite fmap_cons, Hcp, list_to_set_cons.
          generalize (list_to_set (coordinate_of <$> new)
                        : gset (string * SequenceRange)).
          intros A. rewrite (assoc_L (∪) A), (comm_L (∪) A). reflexivity. }
        split; [reflexivity|].
        split.
        { rewrite fmap_cons. apply NoDup_cons. split; [|assumption].
          intros Hin. apply list_elem_of_fmap in Hin as (q & Hq & Hqin).
          rewrite Forall_forall in Hfresh. now apply (Hfresh q Hqin). }
        constructor.
        { split; [now rewrite Hcp|]. exists t. split; [now left|].
          unfold produced_by. cbn. auto. }
        eapply Forall_impl; [exact Hall|]. cbn.
        intros q [Hn (t' & Ht' & Hprod)]. rewrite Hc' in Hn.
        split; [intros Hq; apply Hn; now apply elem_of_union_r|].
        exists t'. split; [now right | assumption].
    + destruct (body_out_of_range statement st t msg Hi) as (Hp' & Hc' & He').
      exists new. rewrite Hp, Hc, He, Hp', Hc', He'.
      split; [reflexivity|]. split; [reflexivity|].
      split; [now rewrite <- app_assoc|]. split; [assumption|].
      eapply Forall_impl; [exact Hall|]. cbn.
      intros p [Hn (t' & Ht' & Hprod)]. rewrite Hc' in Hn.
      split; [assumption|]. exists t'. split; [now right | assumption].
Qed.

Abbreviation explode := (explode lookup_gene repr reverse_complement).

Lemma filter_coordinate_none (x : string * SequenceRange) (l : list GeneSnpProbe) :
  Forall (fun q => coordinate_of q <> x) l ->
  filter (fun q => coordinate_of q = x) l = [].
Proof.
  induction 1 as [|q l Hq _ IH]; [reflexivity|].
  now rewrite filter_cons_False.
Qed.


(** The probe of a locus: when [t] is the first transcript that has the
    base at [(c, i)], the probes of [explode] hold one probe for that
    locus; it has the name and the strand of [t], and the mutation as the
    transcripts up to [t] have left it. *)
Lemma explode_probe_of_locus statement ann ps c i pre t post :
  _parse statement = Ok ps ->
  lookup_gene (ps_gene ps) ann = pre ++ t :: post ->
  resolves_to (ps_base ps) t c i ->
  (forall t', t' ∈ pre -> ~ resolves_to (ps_base ps) t' c i) ->
  exists probes err,
    explode statement (Some ann) = Ok (probes, err) /\
    filter (fun q => coordinate_of q = (c, i)) probes =
      [mk_GeneSnpProbe
         (make_spec
            (set_mutation ps (rc_times (minus_strands (pre ++ [t]))
                                       (ps_mutation ps)))
            (strand_of t) c (tx_name t) i (sr_start i + 1)%Z)].
Proof.
  intros Hparse Hlookup [Hc Hi] Hpre.
  unfold gene_snp_probe.explode. rewrite Hparse. cbn [mbind result_bind].
  rewrite Hlookup.
  set (st0 := mk_explode_state ps ∅ [] []).
  eexists _, _. split; [reflexivity|].
  change (pre ++ t :: post) with (pre ++ [t] ++ post).
  rewrite app_assoc, (loop_app statement (pre ++ [t]) post).
  pose proof (loop_partial_spec statement (pre ++ [t]) st0) as Hps.
  rewrite (loop_app statement pre [t]) in Hps |- *.
  change (loop statement [t] ?s) with (body statement s t) in Hps |- *.
  destruct (loop_spec statement pre st0) as (new1 & Hp1 & Hc1 & _ & _ & Hall1).
  set (st1 := loop statement pre st0) in *.
  assert (Hb1 : ps_base (es_partial_spec st1) = ps_base ps)
    by apply loop_base.
  assert (Hnew1 : Forall (fun q => coordinate_of q <> (c, i)) new1).
  { eapply Forall_impl; [exact Hall1|]. cbn.
    intros q [_ (t' & Ht' & Hprod)] Hq.
    apply (Hpre t' Ht').
    destruct Hprod as (Hqi & Hqc & _). injection Hq as Hq1 Hq2.
    split; congruence. }
  assert (Hfresh : (tx_chromosome t, i) ∉ es_cached_coordinates st1).
  { rewrite Hc1. cbn [st0 es_cached_coordinates]. rewrite union_empty_r_L.
    intros Hin. apply elem_of_list_to_set, list_elem_of_fmap in Hin
      as (q & Hq & Hqin).
    rewrite Forall_forall in Hnew1. apply (Hnew1 q Hqin). congruence. }
  rewrite <- Hb1 in Hi.
  destruct (body_new statement st1 t i Hi Hfresh) as (Hp2 & Hc2 & _).
  destruct (loop_spec statement post (body statement st1 t))
    as (new2 & Hp3 & _ & _ & _ & Hall2).
  assert (Hnew2 : Forall (fun q => coordinate_of q <> (c, i)) new2).
  { eapply Forall_impl; [exact Hall2|]. cbn.
    intros q [Hq _] Heq. apply Hq. rewrite Hc2, Heq, Hc.
    apply elem_of_union_l. now apply elem_of_singleton. }
  rewrite Hp3, Hp2, Hp1. cbn [st0 es_probes app].
  rewrite !filter_app.
  rewrite (filter_coordinate_none _ _ Hnew1), (filter_coordinate_none _ _ Hnew2).
  rewrite app_nil_r. cbn [app].
  rewrite Hps. cbn [st0 es_partial_spec]. rewrite Hc.
  now rewrite filter_cons_True, filter_nil by reflexivity.
Qed.

(** C3: when two or more transcripts of the gene have the base at the same
    (chromosome, index), explode gives exactly one probe for that
    coordinate, and the probe has the name and the strand of the first of
    those transcripts in the order of the annotation lookup ([t], which no
    transcript before it shares the coordinate with; those that follow it
    in [post] may). *)
Theorem explode_first_occurrence_wins statement ann ps c i pre t post :
  _parse statement = Ok ps ->
  lookup_gene (ps_gene ps) ann = pre ++ t :: post ->
  resolves_to (ps_base ps) t c i ->
  (forall t', t' ∈ pre -> ~ resolves_to (ps_base ps) t' c i) ->
  exists probes err p,
    explode statement (Some ann) = Ok (probes, err) /\
    filter (fun q => coordinate_of q = (c, i)) probes = [p] /\
    sp_transcript (_spec p) = tx_name t /\
    sp_strand (_spec p) = (if tx_plus_strand t then "+" else "-")%string.
Proof.
  intros Hparse Hlookup Hres Hpre.
  destruct (explode_probe_of_locus statement ann ps c i pre t post
              Hparse Hlookup Hres Hpre) as (probes & err & He & Hf).
  eexists probes, err, _. split; [exact He|]. split; [exact Hf|].
  split; reflexivity.
Qed.

(** What [explode] returns on a statement that parses: the probes and the
    lines of the loop, run from the empty state. *)
Lemma explode_Ok statement ann ps :
  _parse statement = Ok ps ->
  explode statement (Some ann) =
    let st := loop statement (lookup_gene (ps_gene ps) ann)
                   (mk_explode_state ps ∅ [] []) in
    Ok (es_probes st, es_stderr st).
Proof.
  intros Hparse. unfold gene_snp_probe.explode. now rewrite Hparse.
Qed.

(** C10: without a genome annotation, explode of a well-formed statement
    does not fail: the annotation is the empty list, the lookup of the gene
    in it finds no transcript, and no probe is returned. *)
Theorem explode_without_annotation statement ps :
  _parse statement = Ok ps ->
  lookup_gene (ps_gene ps) [] = [] ->
  explode statement None = Ok ([], []).
Proof.
  intros Hparse Hlookup.
  unfold gene_snp_probe.explode. rewrite Hparse. cbn [mbind result_bind].
  now rewrite Hlookup.
Qed.

End explode_facts.

(** ** explode on the sample transcripts *)

Section explode_samples.
Import gene_snp_probe samples.

Abbreviation explode_sample :=
  (explode lookup_gene repr print_probes.reverse_complement).

Lemma explode_first_occurrence_wins_witness :
  exists probes err p,
    explode_sample "BRCA1:c.150A>G/21"
      (Some (sample_annotation [short_e; minus_a; minus_b; minus_c]))
      = Ok (probes, err) /\
    filter (fun q => coordinate_of q =
                     ("17"%string,
                      mk_SequenceRange "17" 41245000 41245001 false false))
           probes = [p] /\
    sp_transcript (_spec p) = tx_name minus_a /\
    sp_strand (_spec p) = (if tx_plus_strand minus_a then "+" else "-")%string.
Proof.
  apply (explode_first_occurrence_wins lookup_gene repr
           print_probes.reverse_complement
           "BRCA1:c.150A>G/21"
           (sample_annotation [short_e; minus_a; minus_b; minus_c])
           (mk_partial_spec "BRCA1" 150 "A" "G" 21 "")
           "17" (mk_SequenceRange "17" 41245000 41245001 false false)
           [short_e] minus_a [minus_b; minus_c]).
  - vm_compute. reflexivity.
  - reflexivity.
  - split; vm_compute; reflexivity.
  - intros t' Hin. apply list_elem_of_singleton in Hin as ->.
    intros [_ H]. vm_compute in H. discriminate H.
Defined.

(** A run with a transcript that is too short for the base: it gives a
    line and no probe, and the other transcript gives its probe. *)
Example explode_out_of_range_run :
  explode_summary "BRCA1:c.150A>G/21" [short_e; plus_d] =
    Ok ([("uc010whl.1", "+", "G", 41265000%Z)],
        ["Base is outside the range of transcript uc010cyx.2 in statement: 'BRCA1:c.150A>G/21'"]).
Proof. vm_compute. reflexivity. Qed.

Lemma explode_without_annotation_witness :
  explode_sample "BRCA1:c.150A>G/21" None = Ok ([], []).
Proof.
  apply (explode_without_annotation lookup_gene repr
           print_probes.reverse_complement "BRCA1:c.150A>G/21"
           (mk_partial_spec "BRCA1" 150 "A" "G" 21 "")).
  - vm_compute. reflexivity.
  - reflexivity.
Defined.

(** C2, as the code has it: the complement is written back into the
    dictionary that all the turns of the loop share, so it adds up over the
    transcripts. With the mutation G in the statement: of two transcripts
    on the minus strand the first is given C and the second G again, where
    C was due; and a transcript on the plus strand that follows one on the
    minus strand is given C, where G was due. *)
Theorem explode_strand_handling_is_cumulative :
  explode_summary "BRCA1:c.150A>G/21" [minus_a; minus_c] =
    Ok ([("uc002ict.1", "-", "C", 41245000%Z);
         ("uc002idd.3", "-", "G", 41255000%Z)], []) /\
  explode_summary "BRCA1:c.150A>G/21" [minus_a; plus_d] =
    Ok ([("uc002ict.1", "-", "C", 41245000%Z);
         ("uc010whl.1", "+", "C", 41265000%Z)], []).
Proof. split; vm_compute; reflexivity. Qed.

(** The same on one transcript: the strand law holds for the first
    transcript of a statement. *)
Example explode_single_minus_strand :
  explode_summary "BRCA1:c.150A>G/21" [minus_c] =
    Ok ([("uc002idd.3", "-", "C", 41255000%Z)], []).
Proof. vm_compute. reflexivity. Qed.

(** Two transcripts at one locus, then a third elsewhere: one probe for
    the shared locus, with the name of the first. *)
Example explode_dedup_run :
  explode_summary "BRCA1:c.150A>G/21" [minus_a; minus_b; minus_c] =
    Ok ([("uc002ict.1", "-", "C", 41245000%Z);
         ("uc002idd.3", "-", "C", 41255000%Z)], []).
Proof. vm_compute. reflexivity. Qed.

End explode_samples.

(** ** The example of the specification *)

Example get_ranges_example :
  gene_snp_probe.get_ranges
    (gene_snp_probe.mk_GeneSnpProbe
       (gene_snp_probe.mk_spec "BRCA1" 150 "A" "G" 21 "" "+" "17" "uc010whl.1"
          (gene_snp_probe.mk_SequenceRange "17" 41245000 41245001 false false)
          41245001))
  = (gene_snp_probe.mk_SequenceRange "17" 41244990 41245000 false false,
     gene_snp_probe.mk_SequenceRange "17" 41245000 41245001 true false,
     gene_snp_probe.mk_SequenceRange "17" 41245001 41245011 false false).
Proof. reflexivity. Qed.

(** * Further properties of print_probes.py *)

Section reverse_complement_more.
Import print_probes.

Lemma chars_app (a b : string) : chars (a ++ b) = chars a ++ chars b.
Proof.
  induction a as [|c a IH]; [reflexivity | exact (f_equal (cons c) IH)].
Qed.

Lemma join_app (l1 l2 : list ascii) : join (l1 ++ l2) = (join l1 ++ join l2)%string.
Proof.
  induction l1 as [|c l1 IH]; [reflexivity | exact (f_equal (String c) IH)].
Qed.

Lemma reverse_complement_concat (a b : string) :
  reverse_complement (a ++ b) =
    (reverse_complement b ++ reverse_complement a)%string.
Proof.
  rewrite <- (join_chars (reverse_complement (a ++ b))).
  rewrite reverse_complement_chars, chars_app, map_app, rev_app_distr.
  rewrite join_app.
  rewrite <- !reverse_complement_chars, !join_chars. reflexivity.
Qed.

(** X1: The reverse complement of two pieces put together is the reverse
    complement of the second followed by that of the first. *)
Theorem reverse_complement_app (a b : string) :
  reverse_complement (a ++ b) =
    (reverse_complement b ++ reverse_complement a)%string.
Proof. exact (reverse_complement_concat a b). Qed.

(** X3: A string without any of the eight letters is only reversed: an
    ambiguity code such as N stays what it is. *)
Theorem reverse_complement_other_characters (s : string) :
  forallb (fun c => negb (is_nucleotide c)) (chars s) = true ->
  reverse_complement s = join (rev (chars s)).
Proof.
  intros H. rewrite <- (join_chars (reverse_complement s)).
  rewrite reverse_complement_chars. do 2 f_equal.
  rewrite <- (map_id (chars s)) at 2.
  apply map_ext_in. intros c Hc.
  rewrite forallb_forall in H. specialize (H c Hc).
  destruct c as [[] [] [] [] [] [] [] []]; try reflexivity; discriminate H.
Qed.

Lemma reverse_complement_other_characters_witness :
  reverse_complement "NRY-n" = join (rev (chars "NRY-n")).
Proof.
  apply (reverse_complement_other_characters "NRY-n"). reflexivity.
Defined.

Lemma reverse_complement_nucleotides_witness :
  nucleotides (reverse_complement "acgtTGCA").
Proof.
  apply (reverse_complement_nucleotides "acgtTGCA"). reflexivity.
Defined.

End reverse_complement_more.

(** ** bases_from_coordinate *)

Section bases_from_coordinate_facts.
Import print_probes.
Context {genome : Type}.
Variable reference_bases : genome -> pyval -> pyval -> pyval -> result string.

Abbreviation bases_of := (bases_from_coordinate reference_bases).

(** What [bases_from_coordinate] returns when the dictionary has its eight
    entries and both lookups return. *)
Lemma bases_from_coordinate_Ok (coordinate : dict) (g : genome)
    c1 s1 e1 c2 s2 e2 rc1 rc2 a b :
  dict_get coordinate "chromosome1" = Ok c1 ->
  dict_get coordinate "start1" = Ok s1 ->
  dict_get coordinate "end1" = Ok e1 ->
  dict_get coordinate "chromosome2" = Ok c2 ->
  dict_get coordinate "start2" = Ok s2 ->
  dict_get coordinate "end2" = Ok e2 ->
  dict_get coordinate "rc_side_1" = Ok rc1 ->
  dict_get coordinate "rc_side_2" = Ok rc2 ->
  reference_bases g c1 s1 e1 = Ok a ->
  reference_bases g c2 s2 e2 = Ok b ->
  bases_of coordinate g =
    Ok ((if truthy rc1 then reverse_complement a else a)
        ++ (if truthy rc2 then reverse_complement b else b))%string.
Proof.
  intros H1 H2 H3 H4 H5 H6 H7 H8 Ha Hb.
  unfold bases_from_coordinate.
  rewrite H1, H2, H3. cbn [mbind result_bind]. rewrite Ha.
  cbn [mbind result_bind]. rewrite H4, H5, H6. cbn [mbind result_bind].
  rewrite Hb. cbn [mbind result_bind]. rewrite H7. cbn [mbind result_bind].
  rewrite H8. reflexivity.
Qed.

(** X4: The probe is as long as the two stretches fetched from the genome
    together, whichever sides are reverse-complemented. *)
Theorem bases_from_coordinate_length (coordinate : dict) (g : genome)
    c1 s1 e1 c2 s2 e2 rc1 rc2 a b :
  dict_get coordinate "chromosome1" = Ok c1 ->
  dict_get coordinate "start1" = Ok s1 ->
  dict_get coordinate "end1" = Ok e1 ->
  dict_get coordinate "chromosome2" = Ok c2 ->
  dict_get coordinate "start2" = Ok s2 ->
  dict_get coordinate "end2" = Ok e2 ->
  dict_get coordinate "rc_side_1" = Ok rc1 ->
  dict_get coordinate "rc_side_2" = Ok rc2 ->
  reference_bases g c1 s1 e1 = Ok a ->
  reference_bases g c2 s2 e2 = Ok b ->
  exists bases,
    bases_of coordinate g = Ok bases /\
    String.length bases = String.length a + String.length b.
Proof.
  intros H1 H2 H3 H4 H5 H6 H7 H8 Ha Hb.
  eexists. split.
  - eapply bases_from_coordinate_Ok; eassumption.
  - rewrite length_append.
    destruct (truthy rc1), (truthy rc2);
      rewrite ?reverse_complement_length; reflexivity.
Qed.

(** X5: With both sides flagged, the probe is the reverse complement of the
    second stretch followed by the first: the breakpoint read from the
    other strand. *)
Theorem bases_from_coordinate_both_reversed (coordinate : dict) (g : genome)
    c1 s1 e1 c2 s2 e2 rc1 rc2 a b :
  dict_get coordinate "chromosome1" = Ok c1 ->
  dict_get coordinate "start1" = Ok s1 ->
  dict_get coordinate "end1" = Ok e1 ->
  dict_get coordinate "chromosome2" = Ok c2 ->
  dict_get coordinate "start2" = Ok s2 ->
  dict_get coordinate "end2" = Ok e2 ->
  dict_get coordinate "rc_side_1" = Ok rc1 ->
  dict_get coordinate "rc_side_2" = Ok rc2 ->
  reference_bases g c1 s1 e1 = Ok a ->
  reference_bases g c2 s2 e2 = Ok b ->
  truthy rc1 = true ->
  truthy rc2 = true ->
  bases_of coordinate g = Ok (reverse_complement (b ++ a)).
Proof.
  intros H1 H2 H3 H4 H5 H6 H7 H8 Ha Hb Ht1 Ht2.
  rewrite (bases_from_coordinate_Ok coordinate g c1 s1 e1 c2 s2 e2 rc1 rc2 a b)
    by assumption.
  now rewrite Ht1, Ht2, reverse_complement_concat.
Qed.

End bases_from_coordinate_facts.

(** ** get_sequences, statement by statement *)

Section get_sequences_more.
Import print_probes.
Context {genome spec_t row : Type}.
Variable reference_bases : genome -> pyval -> pyval -> pyval -> result string.
Variable sequence_range : spec_t -> row -> row -> result dict.
Variable to_string : spec_t -> string.
Variable breakpoint_string : dict -> string.
Variable row_name : row -> string.
Variable hash : list item -> Z.

Abbreviation gs_body' :=
  (gs_body reference_bases sequence_range to_string breakpoint_string
           row_name hash).
Abbreviation gs_loop' :=
  (gs_loop reference_bases sequence_range to_string breakpoint_string
           row_name hash).
Abbreviation get_sequences' :=
  (get_sequences reference_bases sequence_range to_string breakpoint_string
                 row_name hash).
Abbreviation probe_name' := (probe_name to_string breakpoint_string row_name).
Abbreviation resolved' := (resolved reference_bases sequence_range hash).
Abbreviation resolves' := (resolves reference_bases sequence_range hash).

Abbreviation redundant_line := (redundant_line to_string row_name).

Lemma gs_loop_app l1 l2 g st :
  gs_loop' (l1 ++ l2) g st =
    match gs_loop' l1 g st with
    | (st', None) => gs_loop' l2 g st'
    | (st', Some e) => (st', Some e)
    end.
Proof.
  revert st. induction l1 as [|s l1 IH]; intros st; [reflexivity|].
  cbn [app gs_loop]. destruct (gs_body' st s g) as [st' [e|]]; [reflexivity|].
  apply IH.
Qed.

(** One turn on a statement that resolves. *)
Lemma gs_body_resolved st s g c b h :
  resolved' g s c b h ->
  gs_body' st s g =
    if decide (h ∈ gs_cached st) then
      (mk_gs_state (Some c) (Some b) (gs_cached st) (gs_yielded st)
                   (gs_stderr st ++ [redundant_line s]), None)
    else
      (mk_gs_state (Some c) (Some b) ({[h]} ∪ gs_cached st)
                   (gs_yielded st ++
                    [(probe_name' (fst (fst s)) c (snd (fst s)) (snd s), b)])
                   (gs_stderr st), None).
Proof.
  destruct s as [[spec l] r]. intros (Hc & Hb & Hh). cbn [fst snd] in *.
  unfold gs_body, gs_try. rewrite Hc, Hb. cbn [gs_except].
  unfold gs_emit. cbn [gs_coordinate local mbind result_bind].
  rewrite Hh. cbn [mbind result_bind gs_cached gs_bases local].
  destruct (decide (h ∈ gs_cached st)); reflexivity.
Qed.

(** The loop over statements that all resolve: it ends without an
    exception; the keys seen are those seen before and those of the
    statements; each statement has added a pair or a line; and each pair
    added is the name and the bases of one of the statements. *)
Lemma gs_loop_resolved g statements : forall st,
  Forall (resolves' g) statements ->
  exists st' ys es,
    gs_loop' statements g st = (st', None) /\
    (forall h, h ∈ gs_cached st' <->
               h ∈ gs_cached st \/
               exists s c b, s ∈ statements /\ resolved' g s c b h) /\
    gs_yielded st' = gs_yielded st ++ ys /\
    gs_stderr st' = gs_stderr st ++ es /\
    List.length ys + List.length es = List.length statements /\
    Forall (fun y => exists s c h, s ∈ statements /\
                       resolved' g s c (snd y) h /\
                       fst y = probe_name' (fst (fst s)) c (snd (fst s)) (snd s))
           ys.
Proof.
  induction statements as [|s statements IH]; intros st Hall.
  - exists st, [], []. cbn. rewrite !app_nil_r.
    repeat split; try constructor; try tauto.
    intros [H|(s & c & b & Hin & _)]; [assumption | inversion Hin].
  - apply Forall_cons in Hall as [(c & b & h & Hs) Hall].
    cbn [gs_loop]. rewrite (gs_body_resolved st s g c b h Hs).
    destruct (decide (h ∈ gs_cached st)) as [Hin|Hnin].
    + destruct (IH (mk_gs_state (Some c) (Some b) (gs_cached st) (gs_yielded st)
                                (gs_stderr st ++ [redundant_line s])) Hall)
        as (st' & ys & es & Hl & Hcache & Hy & He & Hlen & Hown).
      cbn [gs_cached gs_yielded gs_stderr] in *.
      exists st', ys, (redundant_line s :: es).
      split; [exact Hl|]. split; [|split; [exact Hy|split]].
      * intros h'. rewrite Hcache. split.
        -- intros [H|(s' & c' & b' & Hs' & Hr)]; [now left|].
           right. exists s', c', b'. split; [now right | assumption].
        -- intros [H|(s' & c' & b' & Hs' & Hr)]; [now left|].
           apply elem_of_cons in Hs' as [->|Hs'].
           ++ left. destruct Hs as (Hc1 & _ & Hh1), Hr as (Hc2 & _ & Hh2).
              congruence.
           ++ right. eauto.
      * now rewrite He, <- app_assoc.
      * split; [cbn; lia|].
        eapply Forall_impl; [exact Hown|]. cbn.
        intros y (s' & c' & h' & Hs' & Hr & Hn).
        exists s', c', h'. split; [now right | auto].
    + destruct (IH (mk_gs_state (Some c) (Some b) ({[h]} ∪ gs_cached st)
                      (gs_yielded st ++
                       [(probe_name' (fst (fst s)) c (snd (fst s)) (snd s), b)])
                      (gs_stderr st)) Hall)
        as (st' & ys & es & Hl & Hcache & Hy & He & Hlen & Hown).
      cbn [gs_cached gs_yielded gs_stderr] in *.
      exists st',
        ((probe_name' (fst (fst s)) c (snd (fst s)) (snd s), b) :: ys), es.
      split; [exact Hl|]. split; [|split; [|split; [exact He|split]]].
      * intros h'. rewrite Hcache, elem_of_union, elem_of_singleton. split.
        -- intros [[->|H]|(s' & c' & b' & Hs' & Hr)].
           ++ right. exists s, c, b. split; [now left | assumption].
           ++ now left.
           ++ right. exists s', c', b'. split; [now right | assumption].
        -- intros [H|(s' & c' & b' & Hs' & Hr)]; [left; now right|].
           apply elem_of_cons in Hs' as [->|Hs'].
           ++ left. left. destruct Hs as (Hc1 & _ & Hh1), Hr as (Hc2 & _ & Hh2).
              congruence.
           ++ right. eauto.
      * now rewrite Hy, <- app_assoc.
      * cbn. lia.
      * constructor.
        -- exists s, c, h. split; [now left | auto].
        -- eapply Forall_impl; [exact Hown|]. cbn.
           intros y (s' & c' & h' & Hs' & Hr & Hn).
           exists s', c', h'. split; [now right | auto].
Qed.

Lemma get_sequences_unfold statements g :
  get_sequences' statements g =
    mk_gs_outcome (gs_yielded (fst (gs_loop' statements g gs_init)))
                  (gs_stderr (fst (gs_loop' statements g gs_init)))
                  (snd (gs_loop' statements g gs_init)).
Proof.
  unfold print_probes.get_sequences.
  destruct (gs_loop' statements g gs_init); reflexivity.
Qed.

(** X6: When every statement resolves, nothing is raised; every statement is
    either yielded or reported as redundant; and every pair yielded is the
    name and the bases of one and the same statement. *)
Theorem get_sequences_yields_own_bases statements g :
  Forall (resolves' g) statements ->
  raised (get_sequences' statements g) = None /\
  List.length (yielded (get_sequences' statements g))
  + List.length (stderr (get_sequences' statements g))
  = List.length statements /\
  forall name bases,
    (name, bases) ∈ yielded (get_sequences' statements g) ->
    exists spec l r c,
      (spec, l, r) ∈ statements /\
      sequence_range spec l r = Ok c /\
      bases_from_coordinate reference_bases c g = Ok bases /\
      name = probe_name' spec c l r.
Proof.
  intros Hall. rewrite get_sequences_unfold.
  destruct (gs_loop_resolved g statements gs_init Hall)
    as (st' & ys & es & Hl & _ & Hy & He & Hlen & Hown).
  rewrite Hl. cbn [fst snd yielded stderr raised gs_init gs_yielded gs_stderr app]
    in *.
  rewrite Hy, He. split; [reflexivity|]. split; [exact Hlen|].
  intros name bases Hin. rewrite Forall_forall in Hown.
  destruct (Hown _ Hin) as ([[spec l] r] & c & h & Hs & (Hc & Hb & _) & Hn).
  cbn [fst snd] in *. exists spec, l, r, c. auto.
Qed.

Lemma get_sequences_seen_key pre s g c b h s0 c0 b0 :
  Forall (resolves' g) pre ->
  resolved' g s c b h ->
  s0 ∈ pre ->
  resolved' g s0 c0 b0 h ->
  get_sequences' (pre ++ [s]) g =
    mk_gs_outcome (yielded (get_sequences' pre g))
                  (stderr (get_sequences' pre g) ++ [redundant_line s])
                  None.
Proof.
  intros Hall Hs Hin0 Hs0. rewrite !get_sequences_unfold, gs_loop_app.
  destruct (gs_loop_resolved g pre gs_init Hall)
    as (st' & ys & es & Hl & Hcache & _).
  rewrite Hl. cbn [gs_loop fst snd].
  rewrite (gs_body_resolved st' s g c b h Hs).
  rewrite decide_True; [reflexivity|].
  apply Hcache. right. eauto.
Qed.

(** X7: A statement whose canonical key is that of a statement before it is
    not yielded: a line says that it is redundant. The key decides, not
    the coordinates. *)
Theorem get_sequences_redundant pre s g c b h s0 c0 b0 :
  Forall (resolves' g) pre ->
  resolved' g s c b h ->
  s0 ∈ pre ->
  resolved' g s0 c0 b0 h ->
  get_sequences' (pre ++ [s]) g =
    mk_gs_outcome (yielded (get_sequences' pre g))
                  (stderr (get_sequences' pre g) ++ [redundant_line s])
                  None.
Proof. apply get_sequences_seen_key. Qed.

(** X8: A statement whose canonical key no statement before it has is yielded,
    with its own name and bases, after what was yielded before. *)
Theorem get_sequences_fresh pre s g c b h :
  Forall (resolves reference_bases sequence_range hash g) pre ->
  resolved reference_bases sequence_range hash g s c b h ->
  (forall s0 c0 b0,
     s0 ∈ pre -> ~ resolved reference_bases sequence_range hash g s0 c0 b0 h) ->
  get_sequences' (pre ++ [s]) g =
    mk_gs_outcome (yielded (get_sequences' pre g) ++
                   [(probe_name' (fst (fst s)) c (snd (fst s)) (snd s), b)])
                  (stderr (get_sequences' pre g))
                  None.
Proof.
  intros Hall Hs Hfresh. rewrite !get_sequences_unfold, gs_loop_app.
  destruct (gs_loop_resolved g pre gs_init Hall)
    as (st' & ys & es & Hl & Hcache & _).
  rewrite Hl. cbn [gs_loop fst snd].
  rewrite (gs_body_resolved st' s g c b h Hs).
  rewrite decide_False; [reflexivity|].
  intros Hin. apply Hcache in Hin as [Hin|(s0 & c0 & b0 & Hs0 & Hr)].
  - cbn in Hin. now apply not_elem_of_empty in Hin.
  - exact (Hfresh s0 c0 b0 Hs0 Hr).
Qed.

(** X9: Coordinates that hold the items of earlier coordinates in another
    order are redundant. *)
Theorem get_sequences_permuted_coordinates_redundant pre s g c b s0 c0 b0 h0 :
  Forall (resolves' g) pre ->
  sequence_range (fst (fst s)) (snd (fst s)) (snd s) = Ok c ->
  bases_from_coordinate reference_bases c g = Ok b ->
  s0 ∈ pre ->
  resolved' g s0 c0 b0 h0 ->
  NoDup (map fst c0) ->
  c0 ≡ₚ c ->
  get_sequences' (pre ++ [s]) g =
    mk_gs_outcome (yielded (get_sequences' pre g))
                  (stderr (get_sequences' pre g) ++ [redundant_line s])
                  None.
Proof.
  intros Hall Hc Hb Hin0 Hs0 Hnd Hperm.
  destruct (sorted_order_independent c0 c Hnd Hperm) as (items & H0 & H1).
  assert (Hh : dict_hash hash c = Ok h0).
  { destruct Hs0 as (_ & _ & Hh0). unfold dict_hash in *.
    rewrite H0 in Hh0. rewrite H1. exact Hh0. }
  apply (get_sequences_seen_key pre s g c b h0 s0 c0 b0); try assumption.
  repeat split; assumption.
Qed.

(** X10: An exception that the handler does not name ends the iteration: what
    was yielded and printed before stays, and the statements that follow
    are not reached. *)
Theorem get_sequences_other_exception_ends pre spec l r rest g e :
  raised (get_sequences' pre g) = None ->
  (sequence_range spec l r = Raise e \/
   exists c, sequence_range spec l r = Ok c /\
             bases_from_coordinate reference_bases c g = Raise e) ->
  handled e = false ->
  get_sequences' (pre ++ (spec, l, r) :: rest) g =
    mk_gs_outcome (yielded (get_sequences' pre g))
                  (stderr (get_sequences' pre g))
                  (Some e).
Proof.
  intros Hpre Hfail Hh. rewrite !get_sequences_unfold in *. rewrite gs_loop_app.
  destruct (gs_loop' pre g gs_init) as [st' [e'|]]; [discriminate Hpre|].
  cbn [gs_loop fst snd yielded stderr raised].
  unfold gs_body, gs_try.
  destruct Hfail as [Hc|(c & Hc & Hb)]; rewrite Hc; [|rewrite Hb];
    destruct e; try discriminate Hh; reflexivity.
Qed.

End get_sequences_more.

(** * Further properties of gene_snp_probe.py *)

(** ** The statements that the grammar accepts *)

Section grammar_facts.
Import gene_snp_probe.

Ltac by_cases c H :=
  destruct c as [[] [] [] [] [] [] [] []]; try reflexivity; discriminate H.

Lemma space_not_gene c : is_space c = true -> is_gene_char c = false.
Proof. intros H. by_cases c H. Qed.

Lemma gene_not_space c : is_gene_char c = true -> is_space c = false.
Proof. intros H. by_cases c H. Qed.

Lemma space_not_digit c : is_space c = true -> is_digit c = false.
Proof. intros H. by_cases c H. Qed.

Lemma digit_not_space c : is_digit c = true -> is_space c = false.
Proof. intros H. by_cases c H. Qed.

Lemma base_not_digit c : is_base c = true -> is_digit c = false.
Proof. intros H. by_cases c H. Qed.

Lemma base_not_space c : is_base c = true -> is_space c = false.
Proof. intros H. by_cases c H. Qed.

Lemma append_cons c (a b : string) :
  (String c a ++ b)%string = String c (a ++ b).
Proof. reflexivity. Qed.

Lemma append_nil_l (b : string) : ("" ++ b)%string = b.
Proof. reflexivity. Qed.

Lemma consumed_cons c pre rest : consumed (String c (pre ++ rest)) rest = String c pre.
Proof. exact (consumed_app (String c pre) rest). Qed.

Lemma consumed_one c rest : consumed (String c rest) rest = String c "".
Proof. exact (consumed_app (String c "") rest). Qed.

Lemma starts_without_app (p q : ascii -> bool) ws rest :
  all_of q ws ->
  (forall c, q c = true -> p c = false) ->
  starts_without p rest ->
  starts_without p (ws ++ rest).
Proof.
  intros Hws Hqp Hrest. destruct ws as [|c ws]; [exact Hrest|].
  cbn. apply Hqp. unfold all_of in Hws. cbn in Hws.
  now apply andb_true_iff in Hws as [Hc _].
Qed.

(** A greedy repetition takes all the characters of the class that there
    are when the rest of the pattern matches what follows them. *)
Lemma star_max {A} p text rest (k : string -> option A) r :
  all_of p text -> starts_without p rest -> k rest = Some r ->
  star p (text ++ rest) k = Some r.
Proof.
  intros Hall Hrest Hk. induction text as [|c text IH].
  - rewrite append_nil_l. destruct rest as [|c rest]; cbn; [exact Hk|].
    cbn in Hrest. now rewrite Hrest.
  - unfold all_of in Hall. cbn in Hall.
    apply andb_true_iff in Hall as [Hc Hall].
    rewrite append_cons. cbn [star]. rewrite Hc, (IH Hall). reflexivity.
Qed.

Lemma re_match_seq {A} r1 r2 s caps (k : string -> captures -> option A) :
  re_match (Seq r1 r2) s caps k =
    re_match r1 s caps (fun rest caps' => re_match r2 rest caps' k).
Proof. reflexivity. Qed.

Lemma re_match_star_max {A} p text rest caps
    (k : string -> captures -> option A) r :
  all_of p text -> starts_without p rest -> k rest caps = Some r ->
  re_match (Star p) (text ++ rest) caps k = Some r.
Proof. intros. cbn [re_match]. now apply star_max. Qed.

Lemma re_match_lit {A} c rest caps (k : string -> captures -> option A) :
  re_match (Lit c) (String c rest) caps k = k rest caps.
Proof. unfold Lit. cbn [re_match]. now rewrite Ascii.eqb_refl. Qed.

Lemma re_match_group_class {A} n p c rest caps
    (k : string -> captures -> option A) :
  p c = true ->
  re_match (Group n (Class p)) (String c rest) caps k =
    k rest ((n, String c "") :: caps).
Proof. intros Hc. cbn [re_match]. now rewrite Hc, consumed_one. Qed.

Lemma re_match_group_plus_max {A} n p c text rest caps
    (k : string -> captures -> option A) r :
  p c = true -> all_of p text -> starts_without p rest ->
  k rest ((n, String c text) :: caps) = Some r ->
  re_match (Group n (Plus p)) (String c (text ++ rest)) caps k = Some r.
Proof.
  intros Hc Hall Hrest Hk. cbn [re_match]. rewrite Hc.
  apply star_max; [assumption..|]. now rewrite consumed_cons.
Qed.

Lemma consumed_all s : consumed s "" = s.
Proof.
  rewrite <- (append_nil_r s) at 1. apply consumed_app.
Qed.

Lemma star_all {A} p text (k : string -> option A) r :
  all_of p text -> k ""%string = Some r -> star p text k = Some r.
Proof.
  intros Hall Hk. rewrite <- (append_nil_r text).
  now apply star_max.
Qed.

(** The last group on what is left of the line. *)
Lemma re_match_comment comment caps :
  is_comment comment ->
  re_match (Group 6 (Alt (Lit "-" · Lit "-" · Star is_any) (Star is_space)))
           comment caps (fun _ caps' => Some caps')
  = Some ((6, comment) :: caps).
Proof.
  intros [->|(tail & -> & Hall)]; [reflexivity|].
  rewrite !append_cons, append_nil_l.
  unfold Lit. cbn [re_match]. cbn [Ascii.eqb Bool.eqb].
  rewrite (star_all is_any tail _ ((6, String "-" (String "-" tail)) :: caps));
    [reflexivity | assumption |].
  now rewrite consumed_all.
Qed.

Lemma nth_all_of p (ws : list string) i :
  Forall (all_of p) ws -> all_of p (nth i ws ""%string).
Proof.
  intros H. revert i. induction H as [|w ws Hw _ IH]; intros [|i]; cbn;
    try reflexivity; [exact Hw | apply IH].
Qed.

(** The pattern matches a statement written out, and the groups are its
    fields. *)
Lemma regex_match_statement_text gene base reference mutation bases comment ws :
  some_of is_gene_char gene ->
  some_of is_digit base ->
  one_of is_base reference ->
  one_of is_base mutation ->
  some_of is_digit bases ->
  is_comment comment ->
  Forall (all_of is_space) ws ->
  regex_match _STATEMENT_REGEX
    (statement_text gene base reference mutation bases comment ws)
  = Some [(6, comment); (5, bases); (4, mutation); (3, reference); (2, base);
          (1, gene)].
Proof.
  intros (gc & g' & -> & Hgc & Hg') (d1 & ds1 & -> & Hd1 & Hds1)
         (rf & -> & Hrf) (mt & -> & Hmt) (d2 & ds2 & -> & Hd2 & Hds2)
         Hcomment Hws.
  unfold statement_text.
  pose proof (fun i => nth_all_of is_space ws i Hws) as Hw.
  generalize (Hw 0), (Hw 1), (Hw 2), (Hw 3), (Hw 4), (Hw 5), (Hw 6), (Hw 7),
    (Hw 8). clear Hw Hws.
  generalize (nth 0 ws ""%string), (nth 1 ws ""%string), (nth 2 ws ""%string),
    (nth 3 ws ""%string), (nth 4 ws ""%string), (nth 5 ws ""%string),
    (nth 6 ws ""%string), (nth 7 ws ""%string), (nth 8 ws ""%string).
  intros w0 w1 w2 w3 w4 w5 w6 w7 w8 H0 H1 H2 H3 H4 H5 H6 H7 H8.
  rewrite !append_cons, !append_nil_l.
  assert (Hc_digit : starts_without is_digit comment).
  { destruct Hcomment as [->|(tail & -> & _)]; [exact I | reflexivity]. }
  assert (Hc_space : starts_without is_space comment).
  { destruct Hcomment as [->|(tail & -> & _)]; [exact I | reflexivity]. }
  unfold regex_match, _STATEMENT_REGEX.
  rewrite re_match_seq.
  apply re_match_star_max; [assumption | now apply gene_not_space |].
  rewrite re_match_seq.
  apply re_match_group_plus_max; [assumption | assumption | |].
  { apply (starts_without_app _ is_space);
      [assumption | exact space_not_gene | reflexivity]. }
  rewrite re_match_seq.
  apply re_match_star_max; [assumption | reflexivity |].
  rewrite re_match_seq, re_match_lit, re_match_seq.
  apply re_match_star_max; [assumption | reflexivity |].
  rewrite re_match_seq, re_match_lit, re_match_seq, re_match_lit, re_match_seq.
  apply re_match_group_plus_max; [assumption | assumption | |].
  { apply (starts_without_app _ is_space);
      [assumption | exact space_not_digit | now apply base_not_digit]. }
  rewrite re_match_seq.
  apply re_match_star_max; [assumption | now apply base_not_space |].
  rewrite re_match_seq, re_match_group_class by assumption.
  rewrite re_match_seq.
  apply re_match_star_max; [assumption | reflexivity |].
  rewrite re_match_seq, re_match_lit, re_match_seq.
  apply re_match_star_max; [assumption | now apply base_not_space |].
  rewrite re_match_seq, re_match_group_class by assumption.
  rewrite re_match_seq.
  apply re_match_star_max; [assumption | reflexivity |].
  rewrite re_match_seq, re_match_lit, re_match_seq.
  apply re_match_star_max; [assumption | now apply digit_not_space |].
  rewrite re_match_seq.
  apply re_match_group_plus_max; [assumption | assumption | |].
  { apply (starts_without_app _ is_space);
      [assumption | exact space_not_digit | assumption]. }
  rewrite re_match_seq.
  apply re_match_star_max; [assumption | assumption |].
  now apply re_match_comment.
Qed.

(** X15: Every statement of the grammar is accepted: blanks before the gene,
    around the colon, after the base number, around [>] and [/] and after
    the length, and a comment; the fields come back as written, the two
    numbers as the integers that their digits spell. The two numbers have
    no more digits than the interpreter converts. *)
Theorem _parse_accepts_statement_text
    gene base reference mutation bases comment ws :
  some_of is_gene_char gene ->
  some_of is_digit base ->
  (Z.of_nat (String.length base) <= int_max_str_digits)%Z ->
  one_of is_base reference ->
  one_of is_base mutation ->
  some_of is_digit bases ->
  (Z.of_nat (String.length bases) <= int_max_str_digits)%Z ->
  is_comment comment ->
  Forall (all_of is_space) ws ->
  exists b n,
    py_int base = Ok b /\ py_int bases = Ok n /\
    _parse (statement_text gene base reference mutation bases comment ws) =
      Ok (mk_partial_spec gene b reference mutation n comment).
Proof.
  intros Hgene Hbase Hblen Href Hmut Hbases Hnlen Hcomment Hws.
  destruct (py_int_short base Hbase Hblen) as (b & Hb & _).
  destruct (py_int_short bases Hbases Hnlen) as (n & Hn & _).
  exists b, n. split; [exact Hb|]. split; [exact Hn|].
  unfold _parse.
  rewrite (regex_match_statement_text gene base reference mutation bases
             comment ws) by assumption.
  cbn. rewrite Hb, Hn. reflexivity.
Qed.

(** X16: What is accepted has a reference and a mutation of exactly one base
    letter each, and a gene name that is not empty; the comment is blank or
    starts with [--]. *)
Theorem _parse_single_letters statement ps :
  _parse statement = Ok ps ->
  some_of is_gene_char (ps_gene ps) /\
  one_of is_base (ps_reference ps) /\
  one_of is_base (ps_mutation ps) /\
  len (ps_mutation ps) = 1%Z /\
  (all_of is_space (ps_comment ps) \/
   exists tail, ps_comment ps = ("--" ++ tail)%string /\ all_of is_any tail).
Proof.
  unfold _parse. intros H.
  destruct (regex_match _STATEMENT_REGEX statement) as [m|] eqn:Hm;
    [|discriminate].
  apply regex_match_sound in Hm as (text & rest & _ & Hm).
  apply statement_groups in Hm
    as (gene & base & reference & mutation & bases & comment & -> &
        Hgene & Hbase & Href & Hmut & Hbases & Hcomment).
  cbn in H.
  destruct (py_int base) as [zb|] eqn:Hzb; [|discriminate H].
  destruct (py_int bases) as [zn|] eqn:Hzn; [|discriminate H].
  cbn in H.
  injection H as <-. cbn [ps_gene ps_reference ps_mutation ps_comment].
  repeat split; try assumption.
  destruct Hmut as (c & -> & _). reflexivity.
Qed.

(** No group of a match is longer than what was matched. *)
Lemma Matches_groups_length r text caps caps' :
  Matches r text caps caps' ->
  forall L, String.length text <= L ->
  Forall (fun c => String.length (snd c) <= L) caps ->
  Forall (fun c => String.length (snd c) <= L) caps'.
Proof.
  induction 1 as [p c caps Hc|p text caps Hall|p c text caps Hc Hall
                 |r1 r2 text1 text2 caps caps1 caps2 _ IH1 _ IH2
                 |r1 r2 text caps caps' _ IH|r1 r2 text caps caps' _ IH
                 |n r text caps caps' _ IH];
    intros L HL Hcaps; try assumption.
  - rewrite length_append in HL. apply IH2; [lia|]. apply IH1; [lia|assumption].
  - now apply IH.
  - now apply IH.
  - constructor; [exact HL | now apply IH].
Qed.

(** X17: For every input, [_parse] returns a dictionary, or raises
    [InvalidStatement], or raises the [ValueError] of [int] on a number of
    more digits than the interpreter converts, which takes an input longer
    than that limit. No other exception leaves [_parse]. *)
Theorem _parse_outcomes statement :
  (exists ps, _parse statement = Ok ps) \/
  _parse statement = Raise InvalidStatement \/
  (_parse statement = Raise ValueError /\
   (int_max_str_digits < Z.of_nat (String.length statement))%Z).
Proof.
  unfold _parse.
  destruct (regex_match _STATEMENT_REGEX statement) as [m|] eqn:Hm;
    [|right; now left].
  apply regex_match_sound in Hm as (text & rest & -> & Hm).
  pose proof (Matches_groups_length _ _ _ _ Hm
                (String.length (text ++ rest))) as Hlen.
  rewrite length_append in Hlen. specialize (Hlen ltac:(lia) ltac:(constructor)).
  apply statement_groups in Hm
    as (gene & base & reference & mutation & bases & comment & -> &
        _ & Hbase & _ & _ & Hbases & _).
  repeat (apply Forall_cons in Hlen as [? Hlen]). cbn [snd] in *.
  cbn.
  destruct (py_int_outcome base Hbase) as [(zb & -> & _)|[-> Hb]]; cbn.
  - destruct (py_int_outcome bases Hbases) as [(zn & -> & _)|[-> Hn]]; cbn.
    + left. eauto.
    + right. right. split; [reflexivity|]. rewrite length_append. lia.
  - right. right. split; [reflexivity|]. rewrite length_append. lia.
Qed.

End grammar_facts.

(** ** explode, all probes *)

Section explode_more.
Import gene_snp_probe.
Context {row : Type}.
Variable lookup_gene : string -> list row -> list Transcript.
Variable repr : string -> string.
Variable reverse_complement : string -> string.

Abbreviation body_ := (explode_body repr reverse_complement).
Abbreviation loop_ := (explode_loop repr reverse_complement).
Abbreviation explode_ := (explode lookup_gene repr reverse_complement).
Abbreviation rc_n n := (Nat.iter n reverse_complement).

(** Each transcript adds at most one probe or one line. *)
Lemma loop_count statement ts : forall st,
  List.length (es_probes (loop_ statement ts st))
  + List.length (es_stderr (loop_ statement ts st))
  <= List.length (es_probes st) + List.length (es_stderr st) + List.length ts.
Proof.
  induction ts as [|t ts IH]; intros st; [cbn; lia|].
  rewrite loop_cons. etransitivity; [apply IH|]. cbn [List.length].
  destruct (tx_nucleotide_index t (ps_base (es_partial_spec st)))
    as [i|msg] eqn:Hi.
  - destruct (decide ((tx_chromosome t, i) ∈ es_cached_coordinates st))
      as [Hin|Hnin].
    + destruct (body_seen repr reverse_complement statement st t i Hi Hin)
        as (-> & _ & ->). lia.
    + destruct (body_new repr reverse_complement statement st t i Hi Hnin)
        as (-> & _ & ->). rewrite length_app. cbn. lia.
  - destruct (body_out_of_range repr reverse_complement statement st t msg Hi)
      as (-> & _ & ->). rewrite length_app. cbn. lia.
Qed.

(** The probes that the loop appends carry the fields of the statement;
    their mutation is the letter of the statement complemented as many
    times as the dictionary had been when the probe was made. *)
Lemma loop_fields ps statement ts : forall st k p,
  es_partial_spec st = set_mutation ps (rc_n k (ps_mutation ps)) ->
  p ∈ es_probes (loop_ statement ts st) ->
  p ∈ es_probes st \/
  (statement_fields p =
     (ps_gene ps, ps_base ps, ps_reference ps, ps_bases ps, ps_comment ps) /\
   exists n, k <= n <= k + minus_strands ts /\
             sp_mutation (_spec p) = rc_n n (ps_mutation ps)).
Proof.
  induction ts as [|t ts IH]; intros st k p Hps Hin; [now left|].
  rewrite loop_cons in Hin.
  set (k' := if tx_plus_strand t then k else S k).
  assert (Hk' : k <= k' /\ k' + minus_strands ts = k + minus_strands (t :: ts)).
  { unfold k', minus_strands. cbn [List.filter].
    destruct (tx_plus_strand t); cbn; lia. }
  assert (Hps' : es_partial_spec (body_ statement st t) =
                 set_mutation ps (rc_n k' (ps_mutation ps))).
  { rewrite body_partial_spec, Hps. unfold k'.
    destruct (tx_plus_strand t); reflexivity. }
  destruct (IH (body_ statement st t) k' p Hps' Hin) as [Hold|(Hf & n & Hn & Hm)].
  - assert (Hbase : ps_base (es_partial_spec st) = ps_base ps)
      by now rewrite Hps.
    destruct (tx_nucleotide_index t (ps_base (es_partial_spec st)))
      as [i|msg] eqn:Hi.
    + destruct (decide ((tx_chromosome t, i) ∈ es_cached_coordinates st))
        as [Hs|Hs].
      * destruct (body_seen repr reverse_complement statement st t i Hi Hs)
          as (Hp & _). rewrite Hp in Hold. now left.
      * destruct (body_new repr reverse_complement statement st t i Hi Hs)
          as (Hp & _). rewrite Hp, Hps' in Hold.
        apply elem_of_app in Hold as [Hold|Hold]; [now left|].
        apply list_elem_of_singleton in Hold as ->. right.
        split; [reflexivity|]. exists k'. split; [lia | reflexivity].
    + destruct (body_out_of_range repr reverse_complement statement st t msg Hi)
        as (Hp & _). rewrite Hp in Hold. now left.
  - right. split; [exact Hf|]. exists n. split; [lia | exact Hm].
Qed.

(** X18: The probes of one statement have pairwise different coordinates. *)
Theorem explode_coordinates_distinct statement ann ps :
  _parse statement = Ok ps ->
  exists probes err,
    explode_ statement (Some ann) = Ok (probes, err) /\
    NoDup (coordinate_of <$> probes).
Proof.
  intros Hparse.
  rewrite (explode_Ok lookup_gene repr reverse_complement statement ann ps Hparse).
  cbn zeta. eexists _, _. split; [reflexivity|].
  destruct (loop_spec repr reverse_complement statement
              (lookup_gene (ps_gene ps) ann) (mk_explode_state ps ∅ [] []))
    as (new & Hp & _ & _ & Hnd & _).
  rewrite Hp. exact Hnd.
Qed.

(** X19: Each transcript of the gene gives at most one probe or one line: the
    probes and the lines together are no more than the transcripts. *)
Theorem explode_at_most_one_per_transcript statement ann ps :
  _parse statement = Ok ps ->
  exists probes err,
    explode_ statement (Some ann) = Ok (probes, err) /\
    List.length probes + List.length err
    <= List.length (lookup_gene (ps_gene ps) ann).
Proof.
  intros Hparse.
  rewrite (explode_Ok lookup_gene repr reverse_complement statement ann ps Hparse).
  cbn zeta. eexists _, _. split; [reflexivity|].
  etransitivity; [apply loop_count|]. cbn. lia.
Qed.

(** X20: Every probe carries the gene, the base, the reference, the length and
    the comment of the statement; its mutation is the letter of the
    statement, complemented at most once for each transcript on the minus
    strand. *)
Theorem explode_probe_fields statement ann ps :
  _parse statement = Ok ps ->
  exists probes err,
    explode_ statement (Some ann) = Ok (probes, err) /\
    forall p, p ∈ probes ->
      statement_fields p =
        (ps_gene ps, ps_base ps, ps_reference ps, ps_bases ps, ps_comment ps) /\
      exists n, n <= minus_strands (lookup_gene (ps_gene ps) ann) /\
                sp_mutation (_spec p) = rc_n n (ps_mutation ps).
Proof.
  intros Hparse.
  rewrite (explode_Ok lookup_gene repr reverse_complement statement ann ps Hparse).
  cbn zeta. eexists _, _. split; [reflexivity|].
  intros p Hin.
  destruct (loop_fields ps statement (lookup_gene (ps_gene ps) ann)
              (mk_explode_state ps ∅ [] []) 0 p) as [Hold|(Hf & n & Hn & Hm)].
  - cbn. symmetry. apply set_mutation_same.
  - exact Hin.
  - inversion Hold.
  - split; [exact Hf|]. exists n. split; [lia | exact Hm].
Qed.

(** X21: The mutation of the probe of a coordinate: the letter of the statement
    complemented once for every transcript on the minus strand up to the
    first transcript that has the base at that coordinate, that transcript
    included, whether the earlier ones gave a probe or not. *)
Theorem explode_probe_mutation statement ann ps c i pre t post :
  _parse statement = Ok ps ->
  lookup_gene (ps_gene ps) ann = pre ++ t :: post ->
  resolves_to (ps_base ps) t c i ->
  (forall t', t' ∈ pre -> ~ resolves_to (ps_base ps) t' c i) ->
  exists probes err p,
    explode_ statement (Some ann) = Ok (probes, err) /\
    filter (fun q => coordinate_of q = (c, i)) probes = [p] /\
    sp_mutation (_spec p) =
      rc_n (minus_strands (pre ++ [t])) (ps_mutation ps).
Proof.
  intros Hparse Hlookup Hres Hpre.
  destruct (explode_probe_of_locus lookup_gene repr reverse_complement
              statement ann ps c i pre t post Hparse Hlookup Hres Hpre)
    as (probes & err & He & Hf).
  eexists probes, err, _. split; [exact He|]. split; [exact Hf|]. reflexivity.
Qed.

(** X22: When the base is outside every transcript of the gene, there is no
    probe, and one line for each transcript. *)
Theorem explode_all_out_of_range statement ann ps :
  _parse statement = Ok ps ->
  (forall t, t ∈ lookup_gene (ps_gene ps) ann ->
             exists msg, tx_nucleotide_index t (ps_base ps) = IndexOutOfRange msg) ->
  exists err,
    explode_ statement (Some ann) = Ok ([], err) /\
    List.length err = List.length (lookup_gene (ps_gene ps) ann).
Proof.
  intros Hparse Hout.
  rewrite (explode_Ok lookup_gene repr reverse_complement statement ann ps Hparse).
  cbn zeta.
  set (ts := lookup_gene (ps_gene ps) ann) in *.
  destruct (loop_spec repr reverse_complement statement ts
              (mk_explode_state ps ∅ [] []))
    as (new & Hp & _ & He & _ & Hall).
  cbn [es_probes es_stderr es_partial_spec app] in Hp, He, Hall.
  assert (new = []) as ->.
  { destruct new as [|p new]; [reflexivity|].
    apply Forall_cons in Hall as [[_ (t & Ht & Hprod & _)] _].
    destruct (Hout t Ht) as (msg & Hmsg). congruence. }
  eexists. rewrite Hp, He. split; [reflexivity|].
  clear Hp He Hall. induction ts as [|t ts IH]; [reflexivity|].
  cbn [omap list_omap]. unfold out_of_range_line at 1.
  destruct (Hout t) as (msg & ->); [now left|]. cbn [List.length]. f_equal.
  apply IH. intros t' Ht'. apply Hout. now right.
Qed.

End explode_more.

(** ** get_ranges, flanks *)

Section get_ranges_more.
Import gene_snp_probe.
Local Open Scope Z_scope.

(** The three ranges follow each other without a gap. *)
Lemma get_ranges_contiguous (self : GeneSnpProbe) :
  let '(lflank, site, rflank) := get_ranges self in
  sr_end lflank = sr_start site /\ sr_end site = sr_start rflank.
Proof.
  rewrite get_ranges_unfold. cbn. auto.
Qed.

(** X24: For a mutation of one letter and a length of at least one, neither
    flank is negative, and the right flank is as long as the left one or
    one base longer. *)
Theorem get_ranges_balanced (self : GeneSnpProbe) :
  len (sp_mutation (_spec self)) = 1 ->
  1 <= sp_bases (_spec self) ->
  let '(lflank, site, rflank) := get_ranges self in
  let L := sr_end lflank - sr_start lflank in
  let R := sr_end rflank - sr_start rflank in
  0 <= L /\ L <= R <= L + 1 /\ L + 1 + R = sp_bases (_spec self).
Proof.
  intros Hlen Hbases. rewrite get_ranges_unfold. cbn zeta.
  cbn [sr_start sr_end]. rewrite left_buffer_closed_form, Hlen.
  pose proof (Z.div_mod (sp_bases (_spec self) - 1) 2 ltac:(lia)) as Hdm.
  pose proof (Z.mod_pos_bound (sp_bases (_spec self) - 1) 2 ltac:(lia)) as Hm.
  lia.
Qed.

(** X25: The left flank has a negative length exactly when the length asked
    for is less than one. *)
Theorem get_ranges_left_flank_negative (self : GeneSnpProbe) :
  let '(lflank, site, rflank) := get_ranges self in
  sr_end lflank - sr_start lflank < 0 <-> sp_bases (_spec self) <= 0.
Proof.
  rewrite get_ranges_unfold. cbn zeta. cbn [sr_start sr_end].
  rewrite left_buffer_closed_form.
  pose proof (Z.div_mod (sp_bases (_spec self) - 1) 2 ltac:(lia)) as Hdm.
  pose proof (Z.mod_pos_bound (sp_bases (_spec self) - 1) 2 ltac:(lia)) as Hm.
  lia.
Qed.

End get_ranges_more.

(** ** explode and get_ranges together *)

Section explode_get_ranges.
Import gene_snp_probe.
Context {row : Type}.
Variable lookup_gene : string -> list row -> list Transcript.
Variable repr : string -> string.

Lemma rc_times_length n (m : string) :
  String.length (Nat.iter n print_probes.reverse_complement m) = String.length m.
Proof.
  induction n as [|n IH]; [reflexivity|].
  cbn [Nat.iter nat_rect]. now rewrite reverse_complement_length.
Qed.

(** X23: For every probe that explode returns, with the complement of
    print_probes, the ranges of get_ranges are the mutated base and two
    flanks that count [bases] together with it, whatever range the
    transcript gave for the base. *)
Theorem explode_ranges_total_length statement ann ps :
  _parse statement = Ok ps ->
  exists probes err,
    explode lookup_gene repr print_probes.reverse_complement statement
            (Some ann) = Ok (probes, err) /\
    forall p, p ∈ probes ->
      let '(lflank, site, rflank) := get_ranges p in
      (sr_end lflank - sr_start lflank + 1
       + (sr_end rflank - sr_start rflank) = ps_bases ps)%Z.
Proof.
  intros Hparse.
  rewrite (explode_Ok lookup_gene repr print_probes.reverse_complement
             statement ann ps Hparse).
  cbn zeta. eexists _, _. split; [reflexivity|].
  intros p Hin.
  destruct (loop_fields repr print_probes.reverse_complement ps statement
              (lookup_gene (ps_gene ps) ann)
              (mk_explode_state ps ∅ [] []) 0 p) as [Hold|(Hf & n & _ & Hm)].
  - cbn. symmetry. apply set_mutation_same.
  - exact Hin.
  - inversion Hold.
  - rewrite get_ranges_unfold. cbn zeta. cbn [sr_start sr_end].
    unfold statement_fields in Hf. injection Hf as _ _ _ Hbases _.
    assert (Hlen : len (sp_mutation (_spec p)) = 1%Z).
    { unfold len. rewrite Hm, rc_times_length.
      apply _parse_Ok in Hparse as (_ & _ & _ & (c & -> & _) & _).
      reflexivity. }
    rewrite Hlen, Hbases. lia.
Qed.

End explode_get_ranges.

(** * The further properties on the sample data *)

Section print_probes_runs.
Import print_probes samples more_samples.

Abbreviation sample_bases := (bases_from_coordinate reference_bases).
Abbreviation sample_sequences :=
  (get_sequences reference_bases sequence_range to_string breakpoint_string
                 row_name sample_hash).
Abbreviation sample_redundant_line := (redundant_line to_string row_name).

Ltac sample_resolves :=
  eexists _, _, _;
  split; [vm_compute; reflexivity | split; vm_compute; reflexivity].

Lemma bases_from_coordinate_length_witness :
  exists bases,
    sample_bases found sample_genome = Ok bases /\
    String.length bases = String.length "AAAA" + String.length "GGGG".
Proof.
  apply (bases_from_coordinate_length reference_bases found sample_genome
           (PStr "1") (PInt 0) (PInt 4) (PStr "1") (PInt 8) (PInt 12)
           (PBool false) (PBool false) "AAAA" "GGGG");
    vm_compute; reflexivity.
Defined.

Lemma bases_from_coordinate_both_reversed_witness :
  sample_bases both_reversed sample_genome
  = Ok (reverse_complement ("GGGG" ++ "AAAA")).
Proof.
  apply (bases_from_coordinate_both_reversed reference_bases both_reversed
           sample_genome
           (PStr "1") (PInt 0) (PInt 4) (PStr "1") (PInt 8) (PInt 12)
           (PBool true) (PBool true) "AAAA" "GGGG");
    vm_compute; reflexivity.
Defined.

Lemma get_sequences_yields_own_bases_witness :
  raised (sample_sequences [(found, "uc001", "uc002");
                            (both_reversed, "uc003", "uc004")]
                           sample_genome) = None /\
  List.length (yielded (sample_sequences [(found, "uc001", "uc002");
                                          (both_reversed, "uc003", "uc004")]
                                         sample_genome))
  + List.length (stderr (sample_sequences [(found, "uc001", "uc002");
                                           (both_reversed, "uc003", "uc004")]
                                          sample_genome))
  = List.length [(found, "uc001"%string, "uc002"%string);
                 (both_reversed, "uc003"%string, "uc004"%string)] /\
  forall name bases,
    (name, bases) ∈ yielded (sample_sequences
                               [(found, "uc001", "uc002");
                                (both_reversed, "uc003", "uc004")]
                               sample_genome) ->
    exists spec l r c,
      (spec, l, r) ∈ [(found, "uc001"%string, "uc002"%string);
                      (both_reversed, "uc003"%string, "uc004"%string)] /\
      sequence_range spec l r = Ok c /\
      sample_bases c sample_genome = Ok bases /\
      name = probe_name to_string breakpoint_string row_name spec c l r.
Proof.
  apply (get_sequences_yields_own_bases reference_bases sequence_range
           to_string breakpoint_string row_name sample_hash
           [(found, "uc001"%string, "uc002"%string);
            (both_reversed, "uc003"%string, "uc004"%string)] sample_genome).
  apply Forall_cons. split; [sample_resolves|].
  apply Forall_cons. split; [sample_resolves|]. constructor.
Defined.

Lemma get_sequences_redundant_witness :
  sample_sequences ([(found, "uc001", "uc002")] ++ [(found, "uc003", "uc004")])
                   sample_genome
  = mk_gs_outcome
      (yielded (sample_sequences [(found, "uc001", "uc002")] sample_genome))
      (stderr (sample_sequences [(found, "uc001", "uc002")] sample_genome)
       ++ [sample_redundant_line (found, "uc003", "uc004")])
      None.
Proof.
  eapply (get_sequences_redundant reference_bases sequence_range to_string
            breakpoint_string row_name sample_hash
            [(found, "uc001"%string, "uc002"%string)]
            (found, "uc003"%string, "uc004"%string) sample_genome
            found "AAAAGGGG" _ (found, "uc001"%string, "uc002"%string)
            found "AAAAGGGG").
  - apply Forall_cons. split; [sample_resolves | constructor].
  - repeat split; vm_compute; reflexivity.
  - now left.
  - repeat split; vm_compute; reflexivity.
Defined.

Lemma get_sequences_fresh_witness :
  sample_sequences ([(found, "uc001", "uc002")]
                    ++ [(both_reversed, "uc003", "uc004")]) sample_genome
  = mk_gs_outcome
      (yielded (sample_sequences [(found, "uc001", "uc002")] sample_genome)
       ++ [(probe_name to_string breakpoint_string row_name both_reversed
                       both_reversed "uc003" "uc004", "TTTTCCCC"%string)])
      (stderr (sample_sequences [(found, "uc001", "uc002")] sample_genome))
      None.
Proof.
  eapply (get_sequences_fresh reference_bases sequence_range to_string
            breakpoint_string row_name sample_hash
            [(found, "uc001"%string, "uc002"%string)]
            (both_reversed, "uc003"%string, "uc004"%string) sample_genome
            both_reversed "TTTTCCCC").
  - apply Forall_cons. split; [sample_resolves | constructor].
  - repeat split; vm_compute; reflexivity.
  - intros s0 c0 b0 Hin (Hc & _ & Hh).
    apply list_elem_of_singleton in Hin as ->.
    vm_compute in Hc. injection Hc as <-. vm_compute in Hh. discriminate Hh.
Defined.

Lemma get_sequences_permuted_coordinates_redundant_witness :
  sample_sequences ([(found, "uc001", "uc002")]
                    ++ [(found_backwards, "uc003", "uc004")]) sample_genome
  = mk_gs_outcome
      (yielded (sample_sequences [(found, "uc001", "uc002")] sample_genome))
      (stderr (sample_sequences [(found, "uc001", "uc002")] sample_genome)
       ++ [sample_redundant_line (found_backwards, "uc003", "uc004")])
      None.
Proof.
  eapply (get_sequences_permuted_coordinates_redundant reference_bases
            sequence_range to_string breakpoint_string row_name sample_hash
            [(found, "uc001"%string, "uc002"%string)]
            (found_backwards, "uc003"%string, "uc004"%string) sample_genome
            found_backwards "AAAAGGGG"
            (found, "uc001"%string, "uc002"%string) found "AAAAGGGG").
  - apply Forall_cons. split; [sample_resolves | constructor].
  - vm_compute. reflexivity.
  - vm_compute. reflexivity.
  - now left.
  - repeat split; vm_compute; reflexivity.
  - apply (bool_decide_unpack _). vm_compute. reflexivity.
  - apply Permutation_rev.
Defined.

Lemma get_sequences_other_exception_ends_witness :
  sample_sequences ([(found, "uc001", "uc002")]
                    ++ (no_start, "uc003", "uc004")
                       :: [(both_reversed, "uc005", "uc006")]) sample_genome
  = mk_gs_outcome
      (yielded (sample_sequences [(found, "uc001", "uc002")] sample_genome))
      (stderr (sample_sequences [(found, "uc001", "uc002")] sample_genome))
      (Some (KeyError "start1")).
Proof.
  apply (get_sequences_other_exception_ends reference_bases sequence_range
           to_string breakpoint_string row_name sample_hash
           [(found, "uc001"%string, "uc002"%string)]
           no_start "uc003" "uc004"
           [(both_reversed, "uc005"%string, "uc006"%string)] sample_genome
           (KeyError "start1")).
  - vm_compute. reflexivity.
  - right. exists no_start. split; vm_compute; reflexivity.
  - reflexivity.
Defined.

Lemma get_sequences_first_failure_is_fatal_witness :
  sample_sequences (([] : dict, "uc001"%string, "uc002"%string)
                    :: [(found, "uc003"%string, "uc004"%string)]) sample_genome
  = mk_gs_outcome [] ["no feature. Skipping..."%string]
                  (Some (UnboundLocalError "coordinate")).
Proof.
  apply (get_sequences_first_failure_is_fatal reference_bases sequence_range
           to_string breakpoint_string row_name sample_hash
           [] "uc001" "uc002" [(found, "uc003"%string, "uc004"%string)]
           sample_genome "no feature").
  reflexivity.
Defined.

End print_probes_runs.

Section gene_snp_probe_runs.
Import gene_snp_probe samples more_samples.

Abbreviation sample_explode :=
  (explode lookup_gene repr print_probes.reverse_complement).

Lemma _parse_accepts_statement_text_witness :
  exists b n,
    py_int "150" = Ok b /\ py_int "21" = Ok n /\
    _parse (statement_text "BRCA1" "150" "A" "G" "21" "-- exon 5"
              [" "; ""; " "; ""; " "; " "; ""; ""; "  "]%string) =
      Ok (mk_partial_spec "BRCA1" b "A" "G" n "-- exon 5").
Proof.
  apply (_parse_accepts_statement_text "BRCA1" "150" "A" "G" "21" "-- exon 5"
           [" "; ""; " "; ""; " "; " "; ""; ""; "  "]%string).
  - eexists _, _. split; [reflexivity|]. split; reflexivity.
  - eexists _, _. split; [reflexivity|]. split; reflexivity.
  - vm_compute. discriminate.
  - eexists. split; reflexivity.
  - eexists. split; reflexivity.
  - eexists _, _. split; [reflexivity|]. split; reflexivity.
  - vm_compute. discriminate.
  - right. exists " exon 5"%string. split; reflexivity.
  - repeat (apply Forall_cons; split; [reflexivity|]). constructor.
Defined.

Lemma _parse_single_letters_witness :
  some_of is_gene_char "BRCA1" /\
  one_of is_base "A" /\
  one_of is_base "G" /\
  len "G" = 1%Z /\
  (all_of is_space "" \/
   exists tail, ""%string = ("--" ++ tail)%string /\ all_of is_any tail).
Proof.
  apply (_parse_single_letters "BRCA1:c.150A>G/21"
           (mk_partial_spec "BRCA1" 150 "A" "G" 21 "")).
  vm_compute. reflexivity.
Defined.

Lemma explode_coordinates_distinct_witness :
  exists probes err,
    sample_explode "BRCA1:c.150A>G/21"
      (Some (sample_annotation [minus_a; minus_b; minus_c])) = Ok (probes, err) /\
    NoDup (coordinate_of <$> probes).
Proof.
  apply (explode_coordinates_distinct lookup_gene repr
           print_probes.reverse_complement "BRCA1:c.150A>G/21"
           (sample_annotation [minus_a; minus_b; minus_c])
           (mk_partial_spec "BRCA1" 150 "A" "G" 21 "")).
  vm_compute. reflexivity.
Defined.

Lemma explode_at_most_one_per_transcript_witness :
  exists probes err,
    sample_explode "BRCA1:c.150A>G/21"
      (Some (sample_annotation [short_e; minus_a; minus_b])) = Ok (probes, err) /\
    List.length probes + List.length err
    <= List.length (lookup_gene "BRCA1"
                      (sample_annotation [short_e; minus_a; minus_b])).
Proof.
  apply (explode_at_most_one_per_transcript lookup_gene repr
           print_probes.reverse_complement "BRCA1:c.150A>G/21"
           (sample_annotation [short_e; minus_a; minus_b])
           (mk_partial_spec "BRCA1" 150 "A" "G" 21 "")).
  vm_compute. reflexivity.
Defined.

Lemma explode_probe_fields_witness :
  exists probes err,
    sample_explode "BRCA1:c.150A>G/21"
      (Some (sample_annotation [minus_a; plus_d])) = Ok (probes, err) /\
    forall p, p ∈ probes ->
      statement_fields p = ("BRCA1"%string, 150%Z, "A"%string, 21%Z, ""%string) /\
      exists n,
        n <= minus_strands (lookup_gene "BRCA1"
                              (sample_annotation [minus_a; plus_d])) /\
        sp_mutation (_spec p) = Nat.iter n print_probes.reverse_complement "G".
Proof.
  apply (explode_probe_fields lookup_gene repr
           print_probes.reverse_complement "BRCA1:c.150A>G/21"
           (sample_annotation [minus_a; plus_d])
           (mk_partial_spec "BRCA1" 150 "A" "G" 21 "")).
  vm_compute. reflexivity.
Defined.

Lemma explode_probe_mutation_witness :
  exists probes err p,
    sample_explode "BRCA1:c.150A>G/21"
      (Some (sample_annotation [minus_a; short_e; minus_c])) = Ok (probes, err) /\
    filter (fun q => coordinate_of q =
                     ("17"%string,
                      mk_SequenceRange "17" 41255000 41255001 false false))
           probes = [p] /\
    sp_mutation (_spec p) =
      Nat.iter (minus_strands ([minus_a; short_e] ++ [minus_c]))
               print_probes.reverse_complement "G".
Proof.
  apply (explode_probe_mutation lookup_gene repr
           print_probes.reverse_complement "BRCA1:c.150A>G/21"
           (sample_annotation [minus_a; short_e; minus_c])
           (mk_partial_spec "BRCA1" 150 "A" "G" 21 "")
           "17" (mk_SequenceRange "17" 41255000 41255001 false false)
           [minus_a; short_e] minus_c []).
  - vm_compute. reflexivity.
  - reflexivity.
  - split; vm_compute; reflexivity.
  - intros t' Hin [_ H].
    apply elem_of_cons in Hin as [->|Hin];
      [|apply list_elem_of_singleton in Hin as ->];
      vm_compute in H; discriminate H.
Defined.

Lemma explode_all_out_of_range_witness :
  exists err,
    sample_explode "BRCA1:c.150A>G/21" (Some (sample_annotation [short_e]))
      = Ok ([], err) /\
    List.length err
    = List.length (lookup_gene "BRCA1" (sample_annotation [short_e])).
Proof.
  apply (explode_all_out_of_range lookup_gene repr
           print_probes.reverse_complement "BRCA1:c.150A>G/21"
           (sample_annotation [short_e])
           (mk_partial_spec "BRCA1" 150 "A" "G" 21 "")).
  - vm_compute. reflexivity.
  - intros t Hin. change (t ∈ [short_e]) in Hin.
    apply list_elem_of_singleton in Hin as ->.
    eexists. vm_compute. reflexivity.
Defined.

Lemma explode_ranges_total_length_witness :
  exists probes err,
    sample_explode "BRCA1:c.150A>G/21"
      (Some (sample_annotation [minus_a; plus_d])) = Ok (probes, err) /\
    forall p, p ∈ probes ->
      let '(lflank, site, rflank) := get_ranges p in
      (sr_end lflank - sr_start lflank + 1
       + (sr_end rflank - sr_start rflank) = 21)%Z.
Proof.
  apply (explode_ranges_total_length lookup_gene repr "BRCA1:c.150A>G/21"
           (sample_annotation [minus_a; plus_d])
           (mk_partial_spec "BRCA1" 150 "A" "G" 21 "")).
  vm_compute. reflexivity.
Defined.

Lemma get_ranges_balanced_witness :
  let '(lflank, site, rflank) := get_ranges probe_21 in
  let L := (sr_end lflank - sr_start lflank)%Z in
  let R := (sr_end rflank - sr_start rflank)%Z in
  (0 <= L /\ L <= R <= L + 1 /\ L + 1 + R = 21)%Z.
Proof.
  apply (get_ranges_balanced probe_21); [reflexivity | vm_compute; discriminate].
Defined.

End gene_snp_probe_runs.

(** ** explode_statements *)

Section explode_statements_facts.
Import print_probes.
Context {spec_t row annotation_t exon : Type}.
Variable parse : string -> result spec_t.
Variable spec_get : spec_t -> string -> result string.
Variable lookup_gene : string -> annotation_t -> list row.
Variable exons : row -> list exon.
Variable expand : spec_t -> nat -> nat -> result (list spec_t).

Abbreviation es_pairs' := (es_pairs exons expand).
Abbreviation es_loop' := (es_loop parse spec_get lookup_gene exons expand).
Abbreviation explode_statements' :=
  (explode_statements parse spec_get lookup_gene exons expand).

Lemma es_loop_app ann l1 l2 ys :
  es_loop' ann (l1 ++ l2) ys =
    match es_loop' ann l1 ys with
    | (ys', None) => es_loop' ann l2 ys'
    | (ys', Some e) => (ys', Some e)
    end.
Proof.
  revert ys. induction l1 as [|s l1 IH]; intros ys; [reflexivity|].
  cbn [app es_loop].
  destruct (es_statement parse spec_get lookup_gene exons expand ann ys s)
    as [ys' [e|]]; [reflexivity | apply IH].
Qed.

(** The pairs of rows, when [expand] returns for each of them: the
    specifications of each pair are yielded in the order of the pairs. *)
Lemma es_pairs_Ok specification (specs : row -> row -> list spec_t) pairs :
  forall ys,
  (forall l r, (l, r) ∈ pairs ->
     expand specification (List.length (exons l)) (List.length (exons r))
       = Ok (specs l r)) ->
  es_pairs' specification pairs ys =
    (ys ++ flat_map (fun lr => map (fun spec => (spec, fst lr, snd lr))
                                   (specs (fst lr) (snd lr))) pairs,
     None).
Proof.
  induction pairs as [|[l r] pairs IH]; intros ys Hexp.
  - cbn. now rewrite app_nil_r.
  - cbn [es_pairs es_pair]. rewrite (Hexp l r) by now left.
    rewrite IH by (intros l' r' Hin; apply Hexp; now right).
    cbn [flat_map fst snd]. now rewrite <- app_assoc.
Qed.

Lemma flat_map_pairs_with {A B C} (f : A * B -> list C) a (rs : list B) :
  flat_map f (map (fun r => (a, r)) rs) = flat_map (fun r => f (a, r)) rs.
Proof.
  induction rs as [|r rs IH]; [reflexivity|].
  cbn [map flat_map]. now rewrite IH.
Qed.

Lemma flat_map_list_prod {A B C} (f : A * B -> list C) (ls : list A)
    (rs : list B) :
  flat_map f (list_prod ls rs) =
    flat_map (fun l => flat_map (fun r => f (l, r)) rs) ls.
Proof.
  induction ls as [|l ls IH]; [reflexivity|].
  cbn [list_prod flat_map]. now rewrite flat_map_app, IH, flat_map_pairs_with.
Qed.

(** X12: One more statement: its specifications are yielded after those of the
    statements before it, for each row of the first gene in turn with
    every row of the second gene. *)
Theorem explode_statements_one_more pre s ann ys sp g1 g2
    (specs : row -> row -> list spec_t) :
  explode_statements' pre ann = (ys, None) ->
  parse s = Ok sp ->
  spec_get sp "gene1" = Ok g1 ->
  spec_get sp "gene2" = Ok g2 ->
  (forall l r, l ∈ lookup_gene g1 ann -> r ∈ lookup_gene g2 ann ->
     expand sp (List.length (exons l)) (List.length (exons r))
       = Ok (specs l r)) ->
  explode_statements' (pre ++ [s]) ann =
    (ys ++ flat_map (fun l => flat_map (fun r => map (fun spec => (spec, l, r))
                                                     (specs l r))
                                       (lookup_gene g2 ann))
                    (lookup_gene g1 ann),
     None).
Proof.
  intros Hpre Hparse Hg1 Hg2 Hexp.
  unfold print_probes.explode_statements in *.
  rewrite es_loop_app, Hpre. cbn [es_loop].
  unfold es_statement. rewrite Hparse. cbn [mbind result_bind].
  rewrite Hg1. cbn [mbind result_bind]. rewrite Hg2. cbn [mbind result_bind].
  rewrite (es_pairs_Ok sp specs).
  - now rewrite flat_map_list_prod.
  - intros l r Hin. apply list_elem_of_In, in_prod_iff in Hin as [Hl Hr].
    apply Hexp; now apply list_elem_of_In.
Qed.

(** X13: A statement one of whose genes has no row in the annotation yields
    nothing, and nothing is said about it. *)
Theorem explode_statements_gene_without_rows pre s ann ys sp g1 g2 :
  explode_statements' pre ann = (ys, None) ->
  parse s = Ok sp ->
  spec_get sp "gene1" = Ok g1 ->
  spec_get sp "gene2" = Ok g2 ->
  lookup_gene g1 ann = [] \/ lookup_gene g2 ann = [] ->
  explode_statements' (pre ++ [s]) ann = (ys, None).
Proof.
  intros Hpre Hparse Hg1 Hg2 Hempty.
  unfold print_probes.explode_statements in *.
  rewrite es_loop_app, Hpre. cbn [es_loop].
  unfold es_statement. rewrite Hparse. cbn [mbind result_bind].
  rewrite Hg1. cbn [mbind result_bind]. rewrite Hg2. cbn [mbind result_bind].
  assert (Hprod : list_prod (lookup_gene g1 ann) (lookup_gene g2 ann) = []).
  { destruct Hempty as [->| ->]; [reflexivity|].
    induction (lookup_gene g1 ann) as [|l ls IH]; [reflexivity | exact IH]. }
  now rewrite Hprod.
Qed.

(** X14: A statement that does not parse ends the iteration: what was yielded
    before stays, and the statements after it are not reached. *)
Theorem explode_statements_parse_failure_ends pre s rest ann ys e :
  explode_statements parse spec_get lookup_gene exons expand pre ann
    = (ys, None) ->
  parse s = Raise e ->
  explode_statements parse spec_get lookup_gene exons expand
                     (pre ++ s :: rest) ann = (ys, Some e).
Proof.
  intros Hpre Hparse.
  unfold print_probes.explode_statements in *.
  rewrite es_loop_app, Hpre. cbn [es_loop].
  unfold es_statement. now rewrite Hparse.
Qed.

End explode_statements_facts.

Section explode_statements_runs.
Import print_probes more_samples.

Abbreviation fusion_explode :=
  (explode_statements fusion_parse fusion_get fusion_lookup fusion_exons
                      fusion_expand).

Lemma explode_statements_one_more_witness :
  fusion_explode (["BAR/BAR"] ++ ["FOO/BAR"]) fusion_annotation =
    ([([("gene1", "BAR"); ("gene2", "BAR")], ("uc003", 4), ("uc003", 4))]
     ++ flat_map
          (fun l => flat_map
                      (fun r => map (fun spec => (spec, l, r))
                                    [[("gene1", "FOO"); ("gene2", "BAR")]])
                      (fusion_lookup "BAR" fusion_annotation))
          (fusion_lookup "FOO" fusion_annotation),
     None).
Proof.
  apply (explode_statements_one_more fusion_parse fusion_get fusion_lookup
           fusion_exons fusion_expand ["BAR/BAR"] "FOO/BAR"
           fusion_annotation
           [([("gene1", "BAR"); ("gene2", "BAR")], ("uc003", 4), ("uc003", 4))]
           [("gene1", "FOO"); ("gene2", "BAR")] "FOO" "BAR"
           (fun _ _ => [[("gene1", "FOO"); ("gene2", "BAR")]])).
  - vm_compute. reflexivity.
  - vm_compute. reflexivity.
  - reflexivity.
  - reflexivity.
  - intros l r Hl Hr.
    change (l ∈ [("uc001", 3); ("uc002", 2)]) in Hl.
    change (r ∈ [("uc003", 4)]) in Hr.
    apply list_elem_of_singleton in Hr as ->.
    apply elem_of_cons in Hl as [->|Hl];
      [|apply list_elem_of_singleton in Hl as ->]; reflexivity.
Defined.

Lemma explode_statements_gene_without_rows_witness :
  fusion_explode (["FOO/BAR"] ++ ["FOO/QUX"]) fusion_annotation =
    ([([("gene1", "FOO"); ("gene2", "BAR")], ("uc001", 3), ("uc003", 4));
      ([("gene1", "FOO"); ("gene2", "BAR")], ("uc002", 2), ("uc003", 4))],
     None).
Proof.
  apply (explode_statements_gene_without_rows fusion_parse fusion_get
           fusion_lookup fusion_exons fusion_expand ["FOO/BAR"]
           "FOO/QUX" fusion_annotation _
           [("gene1", "FOO"); ("gene2", "QUX")] "FOO" "QUX").
  - vm_compute. reflexivity.
  - vm_compute. reflexivity.
  - reflexivity.
  - reflexivity.
  - right. reflexivity.
Defined.

Lemma explode_statements_parse_failure_ends_witness :
  fusion_explode (["FOO/BAR"] ++ "FOO BAR" :: ["BAR/FOO"])
                 fusion_annotation =
    ([([("gene1", "FOO"); ("gene2", "BAR")], ("uc001", 3), ("uc003", 4));
      ([("gene1", "FOO"); ("gene2", "BAR")], ("uc002", 2), ("uc003", 4))],
     Some InvalidStatement).
Proof.
  apply (explode_statements_parse_failure_ends fusion_parse fusion_get
           fusion_lookup fusion_exons fusion_expand ["FOO/BAR"]
           "FOO BAR" ["BAR/FOO"] fusion_annotation _ InvalidStatement).
  - vm_compute. reflexivity.
  - vm_compute. reflexivity.
Defined.

End explode_statements_runs.

(** ** explode and the transcripts that the base is outside of *)

Section explode_out_of_range.
Import gene_snp_probe.
Context {row : Type}.
Variable lookup_gene : string -> list row -> list Transcript.
Variable repr : string -> string.
Variable reverse_complement : string -> string.



End explode_out_of_range.

Section explode_out_of_range_runs.
Import gene_snp_probe samples more_samples.



(** A base number of more digits than the interpreter converts: the
    pattern matches, and [int] raises. *)
Example _parse_too_many_digits :
  _parse ("BRCA1:c." ++ digits_of 4301 "1" ++ "A>G/21") = Raise ValueError.
Proof. vm_compute. reflexivity. Qed.

End explode_out_of_range_runs.
